(** * Single-page router of nicegui: resolution, navigation and frame updates

    A shallow embedding of [nicegui/single_page_router.py] and
    [nicegui/elements/router_frame.py], as the two files stand.  Routers live
    in a store addressed by identifiers (object references of the Python
    code); every method is a computation over the world (store, slot stack,
    browser log, background tasks, user state) that may raise.

    The frame of [router_frame.py] is not the frame the router was written
    for: its constructor takes other arguments, its [target_url] is a
    property without a setter, and it has no [run_safe].  The embedding
    follows the files: where the router uses what the frame does not offer,
    the call raises as Python raises. *)

From Stdlib Require Import Ascii String.
From stdpp Require Import gmap strings list.

Set Warnings "-register-all".
Local Open Scope string_scope.
Local Open Scope list_scope.

(** ** Python strings *)

Module Str.

(** [s.split(sep)] for a one-character separator. *)
Fixpoint split (sep : ascii) (s : string) : list string :=
  match s with
  | EmptyString => [EmptyString]
  | String c s' =>
      if Ascii.eqb c sep then EmptyString :: split sep s'
      else match split sep s' with
           | h :: t => String c h :: t
           | [] => [String c EmptyString]
           end
  end.

(** [sep.join(l)]. *)
Fixpoint join (sep : string) (l : list string) : string :=
  match l with
  | [] => EmptyString
  | [x] => x
  | x :: rest => x +:+ sep +:+ join sep rest
  end.

Definition startswith (p : ascii) (s : string) : bool :=
  match s with
  | String c _ => Ascii.eqb c p
  | EmptyString => false
  end.

Fixpoint endswith (p : ascii) (s : string) : bool :=
  match s with
  | EmptyString => false
  | String c EmptyString => Ascii.eqb c p
  | String _ s' => endswith p s'
  end.

(** [s.rstrip(c)]: drop every trailing occurrence of [c]. *)
Fixpoint rstrip (c : ascii) (s : string) : string :=
  match s with
  | EmptyString => EmptyString
  | String a s' =>
      match rstrip c s' with
      | EmptyString => if Ascii.eqb a c then EmptyString else String a EmptyString
      | r => String a r
      end
  end.

Fixpoint contains (c : ascii) (s : string) : bool :=
  match s with
  | EmptyString => false
  | String a s' => Ascii.eqb a c || contains c s'
  end.

(** The double quote character, for building script snippets. *)
Definition dq : string := String (Ascii.ascii_of_nat 34) EmptyString.

(** [f'{x}'] for an optional string: [None] prints as the word None. *)
Definition fmt (o : option string) : string :=
  match o with Some s => s | None => "None" end.

End Str.

Definition slash : ascii := Ascii.ascii_of_nat 47.

(** One round of [for i, e in enumerate(l): ... l[i] = e']: the slot [i] of
    the list is replaced when [f i e] gives a new element. *)
Definition update_step {A} (f : nat → A → option A) (acc : list A) (i : nat) : list A :=
  match acc !! i with
  | Some e => match f i e with
              | Some e' => <[i:=e']> acc
              | None => acc
              end
  | None => acc
  end.

(** [for i, e in enumerate(l): ... l[i] = e'] : an in-place update of a list,
    index by index; [f i e = None] leaves the slot as it is. *)
Definition enumerate_update {A} (f : nat → A → option A) (l : list A) : list A :=
  foldl (update_step f) l (seq 0 (length l)).

(** The element a slot holds after the update. *)
Definition updated {A} (f : nat → A → option A) (i : nat) (e : A) : A :=
  default e (f i e).

(** ** Base path and included paths of a router (lines 57-74 of [__init__]) *)

Definition is_param (element : string) : bool :=
  Str.startswith "{" element && Str.endswith "}" element.

Definition resolve_base_path_elements (base_path target_url : string) : list string :=
  let base_path_elements := Str.split slash base_path in
  let target_url_elements := Str.split slash target_url in
  enumerate_update
    (λ i element, if is_param element then target_url_elements !! i else None)
    base_path_elements.

Definition resolve_included_path (base_path_elements : list string) (path : string) : string :=
  let path_elements := Str.split slash path in
  Str.join "/"
    (enumerate_update
       (λ j element, if String.eqb element "*" then base_path_elements !! j else None)
       path_elements).

Definition resolve_included_paths (base_path_elements : list string)
    (included_paths : list string) : list string :=
  enumerate_update (λ _ path, Some (resolve_included_path base_path_elements path))
    included_paths.

(** ** Data model *)

(** Object references: routers are addressed by identifier in the store. *)
Definition rid := nat.
(** User callbacks (hooks) and user builders are named; their behaviour is a
    parameter of the development. *)
Definition hook := nat.

Inductive builder :=
| BuiltinPageNotFound            (* [SinglePageRouter._page_not_found] *)
| UserBuilder (id : nat).

(** The matched route entry of a target; only its [on_open] hook is read. *)
Record SinglePageRouterPath := { rp_on_open : option hook }.

(** Modelled from the spec: the class [SinglePageTarget]
    (nicegui/single_page_target.py) is not part of the sources; its fields are
    those of the Target of the data model, as the router reads them. *)
Record SinglePageTarget := mkTarget {
  original_path : option string;
  valid : bool;
  router : option rid;
  router_path : option SinglePageRouterPath;
  target_builder : option builder;
  title : option string;
  path_args : gmap string string;
  query_args : gmap string string;
  fragment : option string;
  on_pre_update : option hook;
  on_post_update : option hook;
}.

Definition set_target_router (r : rid) (t : SinglePageTarget) : SinglePageTarget :=
  {| original_path := original_path t; valid := valid t; router := Some r;
     router_path := router_path t; target_builder := target_builder t;
     title := title t; path_args := path_args t; query_args := query_args t;
     fragment := fragment t; on_pre_update := on_pre_update t;
     on_post_update := on_post_update t |}.

(** Modelled from the spec: the constructor call
    [SinglePageTarget(builder=..., title=...)] leaves every other field at its
    empty default. *)
Definition SinglePageTarget_new (b : builder) (ttl : string) : SinglePageTarget :=
  {| original_path := None; valid := true; router := None; router_path := None;
     target_builder := Some b; title := Some ttl; path_args := ∅; query_args := ∅;
     fragment := None; on_pre_update := None; on_post_update := None |}.

(** What [navigate_to] and [resolve_target] accept: a URL or a target. *)
Inductive target_arg :=
| TStr (url : string)
| TTarget (t : SinglePageTarget).

(** Values of keyword-argument dictionaries. *)
Inductive value :=
| VNone
| VStr (s : string)
| VTarget (t : SinglePageTarget)
| VRouter (r : rid)
| VObj (id : nat).

Definition value_of (o : option string) : value :=
  match o with Some s => VStr s | None => VNone end.

Definition target_value (a : target_arg) : value :=
  match a with TStr s => VStr s | TTarget t => value_of (original_path t) end.

Abbreviation kwargs := (gmap string value).

(** [a | b] on dictionaries: the entries of [b] win. *)
Definition py_or (a b : kwargs) : kwargs := b ∪ a.

(** An insertion-ordered dictionary, for [child_routers], whose iteration
    order decides which child is tried first. *)
Fixpoint dict_set {V} (k : string) (v : V) (d : list (string * V)) : list (string * V) :=
  match d with
  | [] => [(k, v)]
  | (k', v') :: rest =>
      if String.eqb k' k then (k', v) :: rest else (k', v') :: dict_set k v rest
  end.

(** Modelled from the spec: [SinglePageRouterConfig]
    (nicegui/single_page_router_config.py) is not part of the sources; a config
    carries its base path, an optional [on_open] hook and its parent config.
    Its methods [resolve_target] and [handle_navigate] are parameters below. *)
Inductive SinglePageRouterConfig := mkConfig {
  cfg_id : nat;
  cfg_base_path : string;
  cfg_on_open : option hook;
  parent_config : option SinglePageRouterConfig;
}.

Inductive element :=
| Label (text : string) (classes : string)
| Widget (id : nat).

(** The frame of a router: the entries of [_props] that [RouterFrame.__init__]
    and [RouterFrame.clear] write ([target_url], read through the property of
    that name, [base_path], the masks and [child_frame_paths]), the attributes
    [use_browser_history] and [change_title], the two attributes that only
    the router sets on the frame object ([user_data], which line 168 reads,
    and [child_frame_paths], which line 259 writes), and the elements mounted
    in the frame. *)
Record RouterFrame := mkFrame {
  frame_target_url : option string;
  frame_base_path : string;
  included_path_masks : list string;
  excluded_path_masks : list string;
  props_child_frame_paths : list string;   (* [_props['child_frame_paths']] *)
  frame_use_browser_history : bool;
  frame_change_title : bool;
  frame_user_data : kwargs;
  child_frame_paths : list string;         (* the attribute [child_frame_paths] *)
  frame_content : list element;
}.

Record SinglePageRouter := mkRouter {
  router_config : SinglePageRouterConfig;
  base_path : string;
  user_data : option kwargs;
  child_routers : list (string * rid);
  use_browser_history : bool;
  change_title : bool;
  parent_router : option rid;
  router_frame : RouterFrame;
  _on_navigate : option hook;
  _on_resolve : option hook;
  _on_open : option hook;
}.

Definition with_frame (f : RouterFrame → RouterFrame) (R : SinglePageRouter) : SinglePageRouter :=
  {| router_config := router_config R; base_path := base_path R;
     user_data := user_data R; child_routers := child_routers R;
     use_browser_history := use_browser_history R; change_title := change_title R;
     parent_router := parent_router R; router_frame := f (router_frame R);
     _on_navigate := _on_navigate R; _on_resolve := _on_resolve R;
     _on_open := _on_open R |}.

Definition with_child_routers (c : list (string * rid)) (R : SinglePageRouter) : SinglePageRouter :=
  {| router_config := router_config R; base_path := base_path R;
     user_data := user_data R; child_routers := c;
     use_browser_history := use_browser_history R; change_title := change_title R;
     parent_router := parent_router R; router_frame := router_frame R;
     _on_navigate := _on_navigate R; _on_resolve := _on_resolve R;
     _on_open := _on_open R |}.

Definition frame_set_child_frame_paths (p : list string) (F : RouterFrame) : RouterFrame :=
  {| frame_target_url := frame_target_url F; frame_base_path := frame_base_path F;
     included_path_masks := included_path_masks F;
     excluded_path_masks := excluded_path_masks F;
     props_child_frame_paths := props_child_frame_paths F;
     frame_use_browser_history := frame_use_browser_history F;
     frame_change_title := frame_change_title F;
     frame_user_data := frame_user_data F;
     child_frame_paths := p;
     frame_content := frame_content F |}.

Definition frame_set_props_child_frame_paths (p : list string) (F : RouterFrame) : RouterFrame :=
  {| frame_target_url := frame_target_url F; frame_base_path := frame_base_path F;
     included_path_masks := included_path_masks F;
     excluded_path_masks := excluded_path_masks F;
     props_child_frame_paths := p;
     frame_use_browser_history := frame_use_browser_history F;
     frame_change_title := frame_change_title F;
     frame_user_data := frame_user_data F;
     child_frame_paths := child_frame_paths F;
     frame_content := frame_content F |}.

Definition frame_set_content (c : list element) (F : RouterFrame) : RouterFrame :=
  {| frame_target_url := frame_target_url F; frame_base_path := frame_base_path F;
     included_path_masks := included_path_masks F;
     excluded_path_masks := excluded_path_masks F;
     props_child_frame_paths := props_child_frame_paths F;
     frame_use_browser_history := frame_use_browser_history F;
     frame_change_title := frame_change_title F;
     frame_user_data := frame_user_data F;
     child_frame_paths := child_frame_paths F;
     frame_content := c |}.

(** What [RouterFrame.clear] leaves of a router: the frame's own
    [child_frames] (which the router never fills) and the entry
    [child_frame_paths] of [_props] are reset and the mounted elements are
    removed. The attribute [child_frame_paths] that
    [_register_child_router] writes is another object and stays. *)
Definition emptied (R : SinglePageRouter) : SinglePageRouter :=
  with_frame (λ F, frame_set_content [] (frame_set_props_child_frame_paths [] F)) R.

(** A router whose constructor raised at line 77, after it had registered
    the router with its parent: the attributes of lines 45-56 and 74 are
    set, [router_frame] is not, and a hook attribute exists once its setter
    was called ([None]: there is no such attribute). *)
Record Unfinished := mkUnfinished {
  u_router_config : SinglePageRouterConfig;
  u_base_path : string;
  u_user_data : option kwargs;
  u_child_routers : list (string * rid);
  u_use_browser_history : bool;
  u_change_title : bool;
  u_parent_router : option rid;
  u_on_navigate : option (option hook);
  u_on_resolve : option (option hook);
  u_on_open : option (option hook);
}.

Definition u_with_child_routers (c : list (string * rid)) (H : Unfinished) : Unfinished :=
  {| u_router_config := u_router_config H; u_base_path := u_base_path H;
     u_user_data := u_user_data H; u_child_routers := c;
     u_use_browser_history := u_use_browser_history H;
     u_change_title := u_change_title H; u_parent_router := u_parent_router H;
     u_on_navigate := u_on_navigate H; u_on_resolve := u_on_resolve H;
     u_on_open := u_on_open H |}.

Definition u_with_user_data (d : option kwargs) (H : Unfinished) : Unfinished :=
  {| u_router_config := u_router_config H; u_base_path := u_base_path H;
     u_user_data := d; u_child_routers := u_child_routers H;
     u_use_browser_history := u_use_browser_history H;
     u_change_title := u_change_title H; u_parent_router := u_parent_router H;
     u_on_navigate := u_on_navigate H; u_on_resolve := u_on_resolve H;
     u_on_open := u_on_open H |}.

Definition u_with_hooks (nav res opn : option (option hook)) (H : Unfinished) : Unfinished :=
  {| u_router_config := u_router_config H; u_base_path := u_base_path H;
     u_user_data := u_user_data H; u_child_routers := u_child_routers H;
     u_use_browser_history := u_use_browser_history H;
     u_change_title := u_change_title H; u_parent_router := u_parent_router H;
     u_on_navigate := nav; u_on_resolve := res; u_on_open := opn |}.

(** Entries of [context.slot_stack]: the parent of a slot is a router frame
    (named by its router) or some other element. *)
Inductive slot :=
| SlotFrame (r : rid)
| SlotOther.

(** What reaches the browser. The emitter of a title is recorded so that one
    can tell which router or frame wrote it. *)
Inductive emitter :=
| ByRouter (r : rid)
| ByFrame (r : rid).

Inductive Event :=
| RunJavascript (code : string)
| PageTitle (who : emitter) (ttl : string).

(** A scheduled [build()] coroutine of [update_content]. *)
Record Task := mkTask {
  task_frame : rid;
  task_builder : builder;
  task_kwargs : kwargs;
  task_fragment : option string;
}.

(** ** Exceptions and outcomes *)

Inductive exn :=
| TypeError
| AttributeError
| IndexError
| NotImplementedError
| DanglingReference   (* not a Python exception: the reference names no object *)
| UserException (code : nat).

(** Result of user code: it returns or raises. *)
Inductive result (A : Type) :=
| Ok (a : A)
| Err (e : exn).
Arguments Ok {A} a.
Arguments Err {A} e.

(** Outcome of a method of the model; [OutOfFuel] stands for a recursion that
    did not come back within the depth it was given. *)
Inductive outcome (A : Type) :=
| Ret (a : A)
| Raise (e : exn)
| OutOfFuel.
Arguments Ret {A} a.
Arguments Raise {A} e.
Arguments OutOfFuel {A}.

(** ** Python call protocol for keyword-only calls [f( **kwargs )] *)

Inductive ParamKind :=
| POSITIONAL_ONLY
| POSITIONAL_OR_KEYWORD
| VAR_POSITIONAL
| KEYWORD_ONLY
| VAR_KEYWORD.

Record Param := mkParam {
  p_name : string;
  p_kind : ParamKind;
  p_has_default : bool;
}.

Definition accepts_keyword (p : Param) : bool :=
  match p_kind p with
  | POSITIONAL_OR_KEYWORD | KEYWORD_ONLY => true
  | _ => false
  end.

Definition is_var_keyword (p : Param) : bool :=
  match p_kind p with VAR_KEYWORD => true | _ => false end.

(** [inspect.signature(f).parameters.keys()] *)
Definition parameter_names (sig : list Param) : list string := p_name <$> sig.

Definition key_accepted (sig : list Param) (k : string) : bool :=
  existsb (λ p, accepts_keyword p && String.eqb (p_name p) k) sig
  || existsb is_var_keyword sig.

Definition param_satisfied (kw : kwargs) (p : Param) : bool :=
  match p_kind p with
  | POSITIONAL_ONLY => p_has_default p
  | POSITIONAL_OR_KEYWORD | KEYWORD_ONLY =>
      p_has_default p || bool_decide (is_Some (kw !! p_name p))
  | VAR_POSITIONAL | VAR_KEYWORD => true
  end.

(** Whether the call [f( **kw )] binds: no unexpected keyword, no missing
    required parameter. Otherwise Python raises [TypeError]. *)
Definition binds (sig : list Param) (kw : kwargs) : bool :=
  forallb (key_accepted sig) (map_to_list kw).*1
  && forallb (param_satisfied kw) sig.

(** ** The router over a world *)

(** [PATH_RESOLVING_MAX_RECURSION = 100] *)
Definition PATH_RESOLVING_MAX_RECURSION : nat := 100.

(** [U] is the state of the user's own code (what hooks and builders close
    over). *)
Record World {U : Type} := mkWorld {
  routers : gmap rid SinglePageRouter;
  unfinished : gmap rid Unfinished;
  next_rid : rid;
  slot_stack : list slot;
  log : list Event;
  tasks : list Task;
  user : U;
}.
Arguments World U : clear implicits.

Section Computations.

Context {U : Type}.
Implicit Type w : World U.

Definition set_routers (f : gmap rid SinglePageRouter → gmap rid SinglePageRouter) (w : World U) : World U :=
  {| routers := f (routers w); unfinished := unfinished w; next_rid := next_rid w; slot_stack := slot_stack w;
     log := log w; tasks := tasks w; user := user w |}.
Definition set_unfinished (f : gmap rid Unfinished → gmap rid Unfinished) (w : World U) : World U :=
  {| routers := routers w; unfinished := f (unfinished w); next_rid := next_rid w;
     slot_stack := slot_stack w; log := log w; tasks := tasks w; user := user w |}.
Definition set_next_rid (n : rid) (w : World U) : World U :=
  {| routers := routers w; unfinished := unfinished w; next_rid := n; slot_stack := slot_stack w;
     log := log w; tasks := tasks w; user := user w |}.
Definition set_slot_stack (f : list slot → list slot) (w : World U) : World U :=
  {| routers := routers w; unfinished := unfinished w; next_rid := next_rid w; slot_stack := f (slot_stack w);
     log := log w; tasks := tasks w; user := user w |}.
Definition set_log (f : list Event → list Event) (w : World U) : World U :=
  {| routers := routers w; unfinished := unfinished w; next_rid := next_rid w; slot_stack := slot_stack w;
     log := f (log w); tasks := tasks w; user := user w |}.
Definition set_tasks (f : list Task → list Task) (w : World U) : World U :=
  {| routers := routers w; unfinished := unfinished w; next_rid := next_rid w; slot_stack := slot_stack w;
     log := log w; tasks := f (tasks w); user := user w |}.
Definition set_user (u : U) (w : World U) : World U :=
  {| routers := routers w; unfinished := unfinished w; next_rid := next_rid w; slot_stack := slot_stack w;
     log := log w; tasks := tasks w; user := u |}.

(** *** Computations *)

Definition M (A : Type) : Type := World U → outcome A * World U.

Definition ret {A} (a : A) : M A := λ w, (Ret a, w).
Definition raise {A} (e : exn) : M A := λ w, (Raise e, w).
Definition out_of_fuel {A} : M A := λ w, (OutOfFuel, w).
Definition bind {A B} (m : M A) (k : A → M B) : M B := λ w,
  match m w with
  | (Ret a, w') => k a w'
  | (Raise e, w') => (Raise e, w')
  | (OutOfFuel, w') => (OutOfFuel, w')
  end.

Definition when (b : bool) (m : M unit) : M unit := if b then m else ret tt.

(** User code runs on the user state only. *)
Definition lift_user {A} (f : U → result A * U) : M A := λ w,
  match f (user w) with
  | (Ok a, u) => (Ret a, set_user u w)
  | (Err e, u) => (Raise e, set_user u w)
  end.

Definition get_router (r : rid) : M SinglePageRouter := λ w,
  match routers w !! r with
  | Some R => (Ret R, w)
  | None => (Raise DanglingReference, w)
  end.

Definition modify_router (r : rid) (f : SinglePageRouter → SinglePageRouter) : M unit := λ w,
  match routers w !! r with
  | Some R => (Ret tt, set_routers <[r := f R]> w)
  | None => (Raise DanglingReference, w)
  end.

Definition modify_unfinished (r : rid) (f : Unfinished → Unfinished) : M unit := λ w,
  match unfinished w !! r with
  | Some H => (Ret tt, set_unfinished <[r := f H]> w)
  | None => (Raise DanglingReference, w)
  end.

(** A method called on the object [self] names: a constructed router, or
    one that its constructor left unfinished (see [__init__]). *)
Definition method {A} (self : rid) (constructed : SinglePageRouter → M A)
    (left_unfinished : Unfinished → M A) : M A := λ w,
  match routers w !! self with
  | Some R => constructed R w
  | None =>
      match unfinished w !! self with
      | Some H => left_unfinished H w
      | None => (Raise DanglingReference, w)
      end
  end.

Definition require_dict (d : option kwargs) : M kwargs :=
  match d with Some d => ret d | None => raise TypeError end.

(** *** Collaborators: the browser *)

Definition ui_run_javascript (code : string) : M unit := λ w,
  (Ret tt, set_log (λ l, l ++ [RunJavascript code]) w).

Definition ui_page_title (who : emitter) (ttl : string) : M unit := λ w,
  (Ret tt, set_log (λ l, l ++ [PageTitle who ttl]) w).

(** An element created while a frame's slot is on top of the stack is
    mounted into that frame. *)
Definition ui_mount (e : element) : M unit := λ w,
  match slot_stack w with
  | SlotFrame r :: _ =>
      (Ret tt, set_routers
                 (alter (with_frame (λ F, frame_set_content (frame_content F ++ [e]) F)) r) w)
  | _ => (Ret tt, w)
  end.

(** *** Notions about computations *)

(** Computations that touch the user state only and come back. *)
Definition user_only {A} (m : M A) : Prop :=
  ∀ w, ∃ o u, o ≠ OutOfFuel ∧ m w = (o, set_user u w).

(** A body either settles on an outcome without looking at [restart], or
    hands over to [restart] on one target; in both cases only the user state
    has changed. *)
Definition settles
    (body : (SinglePageTarget → M SinglePageTarget) → M SinglePageTarget) w : Prop :=
  (∃ o u, o ≠ OutOfFuel ∧ ∀ restart, body restart w = (o, set_user u w))
  ∨ (∃ t u, ∀ restart, body restart w = restart t (set_user u w)).

(** [m] only appends to the log, and what it appends satisfies [P]. *)
Definition appends {A} (P : list Event → Prop) (m : M A) : Prop :=
  ∀ w o w', m w = (o, w') → ∃ evs, log w' = log w ++ evs ∧ P evs.

End Computations.

Arguments M U A : clear implicits.

Notation "'let*' x ':=' m 'in' k" := (bind m (λ x, k))
  (at level 10, x binder, m at level 100, k at level 200).
Notation "m ;; k" := (bind m (λ _, k))
  (at level 100, k at level 200, right associativity).

(** ** The code around the router

    What the router calls but does not define: the Python library, the
    application configuration, the user's callbacks and builders, and the
    classes of the package that are not part of the sources. *)
Class Env (U : Type) := {
  (** [fnmatch.fnmatch] of the Python library. *)
  fnmatch : string → string → bool;
  (** [core.app.config.title] *)
  app_title : string;
  (** The callbacks registered with [on_navigate], [on_resolve], [on_open]
      (router, route entry and config), called with positional targets and
      keyword arguments. A callback computes on the user's state and returns
      or raises; it does not call back into the router. *)
  call_on_navigate : hook → string → U → result (option string) * U;
  call_on_resolve : hook → target_arg → U → result (option SinglePageTarget) * U;
  call_on_open : hook → list SinglePageTarget → kwargs → U → result SinglePageTarget * U;
  (** [SinglePageRouterConfig.handle_navigate] and [.resolve_target]. *)
  config_handle_navigate : SinglePageRouterConfig → string → U → result (option string) * U;
  config_resolve_target : SinglePageRouterConfig → string → U → result (option SinglePageTarget) * U;
  (** User builders: their signature and what their body does, given the
      keyword arguments it was called with. A builder mounts elements and may
      create nested routers, so it acts on the whole world. *)
  signature : nat → list Param;
  builder_body : nat → kwargs → World U → result unit * World U;
  (** [helpers.is_coroutine_function]: an [async def] builder. *)
  is_coroutine_function : nat → bool;
}.

Section Router.

Context {U : Type} `{!Env U}.
Implicit Type w : World U.

Definition lift_world {A} (f : World U → result A * World U) : M U A := λ w,
  match f w with
  | (Ok a, w') => (Ret a, w')
  | (Err e, w') => (Raise e, w')
  end.

(** *** RouterFrame (router_frame.py) *)

(** [with self:] — the frame's slot is on the stack while the body runs. *)
Definition with_slot {A} (self : rid) (m : M U A) : M U A := λ w,
  let '(o, w') := m (set_slot_stack (cons (SlotFrame self)) w) in
  (o, set_slot_stack (drop 1) w').

(** [SinglePageRouter._page_not_found]: the default builder. *)
Definition _page_not_found : M U unit :=
  ui_mount (Label "Oops! Page Not Found 🚧" "text-3xl") ;;
  ui_mount (Label "Sorry, the page you are looking for could not be found. 😔" "").

Definition signature_of (b : builder) : list Param :=
  match b with
  | BuiltinPageNotFound => []
  | UserBuilder id => signature id
  end.

(** A coroutine that was created and not yet awaited: the builder and the
    keyword arguments it was called with. *)
Definition coroutine : Type := nat * kwargs.

(** The call [builder( **kw )]. Calling a coroutine function binds the
    arguments and hands back a coroutine; its body runs when it is awaited. *)
Definition py_call (b : builder) (kw : kwargs) : M U (option coroutine) :=
  if binds (signature_of b) kw then
    match b with
    | BuiltinPageNotFound => _page_not_found ;; ret None
    | UserBuilder id =>
        if is_coroutine_function id then ret (Some (id, kw))
        else lift_world (builder_body id kw) ;; ret None
    end
  else raise TypeError.

Definition await (c : coroutine) : M U unit :=
  lift_world (builder_body c.1 c.2).

(** The keyword arguments [exec_builder] keeps. *)
Definition filter_kwargs (args : list string) (builder_kwargs : kwargs) : kwargs :=
  filter (λ kv, kv.1 ∈ args) builder_kwargs.

(** [exec_builder] of [update_content]. *)
Definition exec_builder (b : builder) (builder_kwargs : kwargs) : M U (option coroutine) :=
  let args := parameter_names (signature_of b) in
  let kw := filter_kwargs args builder_kwargs in
  py_call b kw.

Definition fragment_js (f : string) : string :=
  "window.location.href = " +:+ Str.dq +:+ "#" +:+ f +:+ Str.dq +:+ ";".

Definition goto_fragment (target_fragment : option string) : M U unit :=
  match target_fragment with
  | Some f => ui_run_javascript (fragment_js f)
  | None => ret tt
  end.

(** [build()] of [update_content]: the scheduled build awaits a coroutine
    builder. *)
Definition build (self : rid) (b : builder) (builder_kwargs : kwargs)
    (target_fragment : option string) : M U unit :=
  with_slot self
    (let* result := exec_builder b builder_kwargs in
     match result with
     | Some c => await c
     | None => ret tt
     end ;;
     goto_fragment target_fragment).

(** Lines 150-153 of [update_content]: the build done at once; what the
    builder returns is dropped. *)
Definition build_sync (self : rid) (b : builder) (builder_kwargs : kwargs)
    (target_fragment : option string) : M U unit :=
  with_slot self
    (exec_builder b builder_kwargs ;;
     goto_fragment target_fragment).

Definition background_tasks_create (t : Task) : M U unit := λ w,
  (Ret tt, set_tasks (λ l, l ++ [t]) w).

(** [RouterFrame.clear] *)
Definition frame_clear (self : rid) : M U unit :=
  modify_router self emptied.

(** [RouterFrame.update_content] *)
Definition update_content (self : rid) (b : builder) (builder_kwargs : kwargs)
    (ttl : option string) (target_fragment : option string) (_sync : bool) : M U unit :=
  let* R := get_router self in
  when (frame_change_title (router_frame R))
    (ui_page_title (ByFrame self) (default app_title ttl)) ;;
  frame_clear self ;;
  if _sync then build_sync self b builder_kwargs target_fragment
  else background_tasks_create
         {| task_frame := self; task_builder := b; task_kwargs := builder_kwargs;
            task_fragment := target_fragment |}.

(** The event loop takes the oldest scheduled build and runs it; what it
    raises is reported by the task runner, not propagated. *)
Definition run_background_task : M U unit := λ w,
  match tasks w with
  | [] => (Ret tt, w)
  | t :: rest =>
      let '(_, w') := build (task_frame t) (task_builder t) (task_kwargs t)
                        (task_fragment t) (set_tasks (λ _, rest) w) in
      (Ret tt, w')
  end.

(** *** SinglePageRouter (single_page_router.py) *)

(** The walk over the config chain at the end of [resolve_target]; [restart]
    is the recursive call [self.resolve_target(target, user_data)]. *)
Fixpoint config_on_open_loop (restart : SinglePageTarget → M U SinglePageTarget)
    (path : option string) (config : SinglePageRouterConfig)
    (target : SinglePageTarget) : M U SinglePageTarget :=
  let next (target : SinglePageTarget) :=
    match parent_config config with
    | Some parent => config_on_open_loop restart path parent target
    | None => ret target
    end in
  match cfg_on_open config with
  | Some h =>
      let* target := lift_user (call_on_open h [target] ∅) in
      if bool_decide (original_path target ≠ path) then restart target
      else next target
  | None => next target
  end.

(** Lines 114-130 of [resolve_target]: the [on_open] hooks of the router,
    of the matched route entry and of the config chain, for a target with a
    route entry. [on_open] is the attribute [_on_open] of the router, [None]
    when the router has no such attribute. With a hook set, line 116 first
    looks up [RouterFrame.run_safe], which the frame of the sources does
    not define: [AttributeError], before the keyword arguments are built and
    before the hook is called. *)
Definition run_on_open_hooks (restart : SinglePageTarget → M U SinglePageTarget)
    (on_open : option (option hook)) (config : SinglePageRouterConfig)
    (user_data : option kwargs) (target : SinglePageTarget) : M U SinglePageTarget :=
  let path := original_path target in
  let after_router_path (target : SinglePageTarget) :=
    config_on_open_loop restart path config target in
  let after_router (target : SinglePageTarget) :=
    match router_path target with
    | None => raise AttributeError
    | Some rp =>
        match rp_on_open rp with
        | Some h =>
            let* ud := require_dict user_data in
            let* target := lift_user (call_on_open h [target] ud) in
            if bool_decide (original_path target ≠ path)
            then restart target
            else after_router_path target
        | None => after_router_path target
        end
    end in
  match on_open with
  | None => raise AttributeError            (* line 115: no attribute [_on_open] *)
  | Some (Some _) => raise AttributeError   (* line 116: no [RouterFrame.run_safe] *)
  | Some None => after_router target
  end.

(** The router of a freshly resolved target (lines 109-110). *)
Definition claim_target (self : rid) (target : SinglePageTarget) : SinglePageTarget :=
  if valid target && bool_decide (router target = None)
  then set_target_router self target else target.

(** Lines 102-103 of [resolve_target]: the custom handler is tried first. *)
Definition try_handler (on_resolve : option hook) (target : target_arg)
    : M U (option SinglePageTarget) :=
  match on_resolve with
  | Some h => lift_user (call_on_resolve h target)
  | None => ret None
  end.

Definition try_on_resolve (R : SinglePageRouter) (target : target_arg)
    : M U (option SinglePageTarget) :=
  try_handler (_on_resolve R) target.

(** Lines 102-131 of [resolve_target], for the attributes it reads. The test
    [target is None] of line 111 comes after [target.valid] was read, so a
    null target has raised [AttributeError] before it. *)
Definition resolve_target_with (on_resolve : option hook) (on_open : option (option hook))
    (config : SinglePageRouterConfig)
    (restart : SinglePageTarget → M U SinglePageTarget)
    (self : rid) (target : target_arg) (user_data : option kwargs) : M U SinglePageTarget :=
  let* resolved_target := try_handler on_resolve target in
  match resolved_target with
  | Some t => ret t
  | None =>
      match target with
      | TTarget t => ret t
      | TStr url =>
          let* target := lift_user (config_resolve_target config url) in
          match target with
          | None => raise AttributeError
          | Some target =>
              let target := claim_target self target in
              match router_path target with
              | None => ret target
              | Some _ => run_on_open_hooks restart on_open config user_data target
              end
          end
      end
  end.

(** The body of [SinglePageRouter.resolve_target]; [restart] is the
    recursive call [self.resolve_target(target, user_data)]. An unfinished
    router without the attribute [_on_resolve] fails at line 102. *)
Definition resolve_target_body (restart : SinglePageTarget → M U SinglePageTarget)
    (self : rid) (target : target_arg) (user_data : option kwargs) : M U SinglePageTarget :=
  method self
    (λ R, resolve_target_with (_on_resolve R) (Some (_on_open R)) (router_config R)
            restart self target user_data)
    (λ H, match u_on_resolve H with
          | Some on_resolve =>
              resolve_target_with on_resolve (u_on_open H) (u_router_config H)
                restart self target user_data
          | None => raise AttributeError
          end).

(** [SinglePageRouter.resolve_target]; [fuel] bounds the depth of the
    recursion. *)
Fixpoint resolve_target (fuel : nat) (self : rid) (target : target_arg)
    (user_data : option kwargs) : M U SinglePageTarget :=
  match fuel with
  | 0 => out_of_fuel
  | S fuel =>
      resolve_target_body (λ t, resolve_target fuel self (TTarget t) user_data)
        self target user_data
  end.

(** *** The hook chain as the specification words it

    The hooks run in order: the router's own [on_open], the matched route
    entry's, then each config's from the immediate one up through its
    parents. After every hook, a target whose [original_path] differs from
    the path that went in ends the chain. An [on_open] hook of the router
    itself fails at the lookup of [RouterFrame.run_safe] (line 116). *)

Fixpoint config_chain (config : SinglePageRouterConfig) : list SinglePageRouterConfig :=
  config :: match parent_config config with
            | Some parent => config_chain parent
            | None => []
            end.

Definition router_on_open (R : SinglePageRouter) (user_data : option kwargs)
    (target : SinglePageTarget) : M U SinglePageTarget :=
  match _on_open R with
  | Some _ => raise AttributeError
  | None => ret target
  end.

Definition route_entry_on_open (user_data : option kwargs)
    (target : SinglePageTarget) : M U SinglePageTarget :=
  match router_path target with
  | None => raise AttributeError
  | Some rp =>
      match rp_on_open rp with
      | Some h => let* ud := require_dict user_data in lift_user (call_on_open h [target] ud)
      | None => ret target
      end
  end.

Definition config_on_open (config : SinglePageRouterConfig)
    (target : SinglePageTarget) : M U SinglePageTarget :=
  match cfg_on_open config with
  | Some h => lift_user (call_on_open h [target] ∅)
  | None => ret target
  end.

Definition on_open_chain (R : SinglePageRouter) (user_data : option kwargs)
    : list (SinglePageTarget → M U SinglePageTarget) :=
  router_on_open R user_data :: route_entry_on_open user_data
  :: (config_on_open <$> config_chain (router_config R)).

Inductive chain_result :=
| Redirected (t : SinglePageTarget)   (* a hook changed the path: restart on [t] *)
| Opened (t : SinglePageTarget).      (* every hook ran and kept the path *)

(** What [resolve_target] does with the result of the chain. *)
Definition restart_or_return (restart : SinglePageTarget → M U SinglePageTarget)
    (r : chain_result) : M U SinglePageTarget :=
  match r with
  | Redirected t => restart t
  | Opened t => ret t
  end.

Fixpoint run_chain (path : option string)
    (hooks : list (SinglePageTarget → M U SinglePageTarget))
    (target : SinglePageTarget) : M U chain_result :=
  match hooks with
  | [] => ret (Opened target)
  | h :: remaining =>
      let* target := h target in
      if bool_decide (original_path target ≠ path) then ret (Redirected target)
      else run_chain path remaining target
  end.

(** Lines 141-148 of [handle_navigate], for the attributes it reads. *)
Definition handle_navigate_with (on_navigate : option hook)
    (config : SinglePageRouterConfig) (target : string) : M U (option string) :=
  let* target :=
    match on_navigate with
    | Some h => lift_user (call_on_navigate h target)
    | None => ret (Some target)
    end in
  match target with
  | None => ret None
  | Some target =>
      let* new_target := lift_user (config_handle_navigate config target) in
      if bool_decide (new_target = None ∨ new_target ≠ Some target) then ret new_target
      else ret (Some target)
  end.

(** [SinglePageRouter.handle_navigate] *)
Definition handle_navigate (self : rid) (target : string) : M U (option string) :=
  method self
    (λ R, handle_navigate_with (_on_navigate R) (router_config R) target)
    (λ H, match u_on_navigate H with
          | Some on_navigate => handle_navigate_with on_navigate (u_router_config H) target
          | None => raise AttributeError
          end).

(** [SinglePageRouter.clear]; on an unfinished router the children are
    forgotten before [self.router_frame] fails. *)
Definition clear (self : rid) : M U unit :=
  method self
    (λ _, modify_router self (with_child_routers []) ;; frame_clear self)
    (λ _, modify_unfinished self (u_with_child_routers []) ;; raise AttributeError).

(** The attribute [user_data] of a router. *)
Definition user_data_of (r : rid) : M U (option kwargs) :=
  method r (λ R, ret (user_data R)) (λ H, ret (u_user_data H)).

(** [SinglePageRouter.get_user_data]: [context.slot_stack] is walked from
    its bottom, so the innermost frame comes last and its entries win; the
    slot stack of the world has its top first. *)
Definition get_user_data : M U kwargs := λ w,
  foldr (λ (s : slot) (outer : M U kwargs),
           let* result_dict := outer in
           match s with
           | SlotFrame r =>
               let* d := user_data_of r in
               let* d := require_dict d in
               ret (py_or result_dict d)
           | SlotOther => ret result_dict
           end)
        (ret ∅) (slot_stack w) w.

(** [SinglePageRouter._register_child_router]; line 259 sets the attribute
    [child_frame_paths] of the frame object. On an unfinished router the
    child is registered before [self.router_frame] fails. *)
Definition _register_child_router (self : rid) (path : string) (frame : rid) : M U unit :=
  method self
    (λ _, modify_router self
            (λ R, with_child_routers (dict_set path frame (child_routers R)) R) ;;
          modify_router self
            (λ R, with_frame (frame_set_child_frame_paths (child_routers R).*1) R))
    (λ _, modify_unfinished self
            (λ H, u_with_child_routers (dict_set path frame (u_child_routers H)) H) ;;
          raise AttributeError).

(** Line 273, [cur_router.router_frame.target_url = target_url]: an
    unfinished router has no [router_frame], and the [target_url] of a frame
    is a property without a setter (router_frame.py, lines 67-70), so the
    assignment raises [AttributeError] either way. *)
Definition assign_target_url (cur_router : rid) (target_url : option string) : M U unit :=
  method cur_router (λ _, raise AttributeError) (λ _, raise AttributeError).

(** The attribute [parent_router] of a router. *)
Definition parent_router_of (r : rid) : M U (option rid) :=
  method r (λ R, ret (parent_router R)) (λ H, ret (u_parent_router H)).

(** The loop of [_update_target_url], [n] iterations left. *)
Fixpoint _update_target_url_loop (n : nat) (cur_router : rid) (target_url : option string) : M U unit :=
  match n with
  | 0 => ret tt
  | S n =>
      assign_target_url cur_router target_url ;;
      let* cur_router := parent_router_of cur_router in
      match cur_router with
      | None => ret tt
      | Some parent => _update_target_url_loop n parent target_url
      end
  end.

(** [SinglePageRouter._update_target_url] *)
Definition _update_target_url (self : rid) (target_url : option string) : M U unit :=
  _update_target_url_loop PATH_RESOLVING_MAX_RECURSION self target_url.

(** The test of line 162: the target matches the mask, or the mask
    extended with [/*]. *)
Definition mask_matches (target path_mask : string) : bool :=
  fnmatch target path_mask
  || fnmatch target (Str.rstrip slash path_mask +:+ "/*").

(** The first child router whose mask matches, in the order of the
    dictionary (lines 161-162). *)
Fixpoint find_child_router (target : string) (children : list (string * rid)) : option rid :=
  match children with
  | [] => None
  | (path_mask, frame) :: rest =>
      if mask_matches target path_mask then Some frame
      else find_child_router target rest
  end.

(** A call [frame.navigate_to(target, server_side, sync, history)]. *)
Record Call := mkCall {
  callee : rid;
  call_target : string;
  call_server_side : bool;
  call_sync : bool;
  call_history : bool;
}.

(** Lines 161-163: the call made on the first child router whose mask
    matches, [frame.navigate_to(target, server_side)]; [sync] and [history]
    are not passed and take the defaults of the signature (line 150). *)
Definition delegated_call (children : list (string * rid)) (target : string)
    (server_side : bool) : option Call :=
  (λ frame, {| callee := frame; call_target := target; call_server_side := server_side;
               call_sync := false; call_history := true |})
    <$> find_child_router target children.

(** The attribute [child_routers] of a router. *)
Definition child_routers_of (r : rid) : M U (list (string * rid)) :=
  method r (λ R, ret (child_routers R)) (λ H, ret (u_child_routers H)).

Definition push_state_js (target_url : option string) : string :=
  "window.history.pushState({page: " +:+ Str.dq +:+ Str.fmt target_url +:+ Str.dq
  +:+ "}, " +:+ Str.dq +:+ Str.dq +:+ ", " +:+ Str.dq +:+ Str.fmt target_url +:+ Str.dq +:+ ");".

(** The target rendered for an unknown path (line 185). *)
Definition page_not_found_target : SinglePageTarget :=
  SinglePageTarget_new BuiltinPageNotFound "Page not found".

(** Lines 194-198 of [navigate_to]: the router writes the title only when
    it has no child routers after the swap. *)
Definition update_title (self : rid) (target : SinglePageTarget) : M U unit :=
  let* R := get_router self in
  when (change_title R && bool_decide (is_Some (target_builder target))
        && (length (child_routers R) =? 0)%nat)
    (ui_page_title (ByRouter self) (default app_title (title target))).

(** Lines 191 and 200: an update hook is handed to [RouterFrame.run_safe],
    which the frame of the sources does not define. *)
Definition run_update_hook (h : option hook) : M U unit :=
  match h with
  | Some _ => raise AttributeError
  | None => ret tt
  end.

(** Lines 186-200 of [navigate_to]: the content swap for a target whose
    builder is [b]. *)
Definition swap_content (self : rid) (target : SinglePageTarget) (b : builder)
    (js_code : string) (handler_kwargs : kwargs) (sync : bool) : M U unit :=
  when (0 <? String.length js_code)%nat (ui_run_javascript js_code) ;;
  let handler_kwargs :=
    py_or (<[ "target" := VTarget target ]>
             (py_or (VStr <$> path_args target) (VStr <$> query_args target)))
          handler_kwargs in
  let target_fragment := fragment target in
  run_update_hook (on_pre_update target) ;;
  clear self ;;
  update_content self b handler_kwargs (title target) target_fragment sync ;;
  update_title self target ;;
  run_update_hook (on_post_update target).

(** Lines 168-170 of [navigate_to]: the keyword arguments of the hooks. *)
Definition initial_handler_kwargs (R : SinglePageRouter) (inherited own : kwargs)
    (target : target_arg) : kwargs :=
  let handler_kwargs :=
    py_or (py_or (py_or inherited own) (frame_user_data (router_frame R)))
          {[ "previous_url_path" := value_of (frame_target_url (router_frame R)) ]} in
  <[ "url_path" := target_value target ]> handler_kwargs.

(** Lines 174-200 of [navigate_to], for a constructed router and a valid
    resolved target. The update of the target URL comes first (line 176). *)
Definition show_target (self : rid) (R : SinglePageRouter) (target : SinglePageTarget)
    (handler_kwargs : kwargs) (sync history : bool) : M U unit :=
  let target_url := original_path target in
  let handler_kwargs := <[ "target_url" := value_of target_url ]> handler_kwargs in
  _update_target_url self target_url ;;
  let js_code :=
    if history && use_browser_history R then push_state_js target_url else "" in
  match target_builder target with
  | Some b => swap_content self target b js_code handler_kwargs sync
  | None =>
      match fragment target with
      | Some f => ui_run_javascript (js_code +:+ fragment_js f)
      | None =>
          swap_content self page_not_found_target BuiltinPageNotFound
            js_code handler_kwargs sync
      end
  end.

(** Lines 168-200 of [navigate_to]: everything after the delegation check
    and the navigation hooks. On an unfinished router line 168 fails at
    [self.router_frame], after the user data were merged. *)
Definition navigate_resolved (fuel : nat) (self : rid) (target : target_arg)
    (sync history : bool) : M U unit :=
  method self
    (λ R,
       let* inherited := get_user_data in
       let* own := require_dict (user_data R) in
       let handler_kwargs := initial_handler_kwargs R inherited own target in
       let* target := resolve_target fuel self target (Some handler_kwargs) in
       if negb (valid target) then ret tt
       else show_target self R target handler_kwargs sync history)
    (λ H,
       let* inherited := get_user_data in
       let* own := require_dict (u_user_data H) in
       raise AttributeError).

(** [SinglePageRouter.navigate_to] *)
Fixpoint navigate_to (fuel : nat) (self : rid) (target : target_arg)
    (server_side sync history : bool) : M U unit :=
  match fuel with
  | 0 => out_of_fuel
  | S fuel =>
      match target with
      | TStr url =>
          let* children := child_routers_of self in
          match delegated_call children url server_side with
          | Some c =>
              navigate_to fuel (callee c) (TStr (call_target c)) (call_server_side c)
                (call_sync c) (call_history c)
          | None =>
              let* target := handle_navigate self url in
              match target with
              | None => ret tt
              | Some url => navigate_resolved fuel self (TStr url) sync history
              end
          end
      | TTarget t => navigate_resolved fuel self target sync history
      end
  end.

(** Lines 35-46 of [RouterFrame.__init__]: the masks of included or
    excluded paths. *)
Definition path_masks (paths : option (list string)) : list string :=
  match paths with
  | Some paths =>
      flat_map (λ path, let cleaned := Str.rstrip slash path in
                        [cleaned; cleaned +:+ "/*"]) paths
  | None => []
  end.

(** Lines 47-51 of [__init__]: the target URL a new router starts from. The
    property [target_url] of the parent reads its frame. *)
Definition initial_target_url (config : SinglePageRouterConfig)
    (parent_router : option rid) (target_url : option string) : M U string :=
  match target_url with
  | Some u => ret u
  | None =>
      match parent_router with
      | Some p =>
          method p
            (λ P, ret (default (cfg_base_path config) (frame_target_url (router_frame P))))
            (λ _, raise AttributeError)
      | None => ret (cfg_base_path config)
      end
  end.

(** [SinglePageRouter.__init__]. Lines 45-76 set the attributes of the new
    object and register it with the parent. Line 77 then calls
    [RouterFrame(base_path=..., target_url=..., ..., on_navigate=...,
    user_data=...)], and the constructor of the frame (router_frame.py,
    lines 17-24) takes [router] and no [base_path], [on_navigate] or
    [user_data]: [TypeError]. The constructor never returns; under a parent
    it leaves the unfinished object in the parent's [child_routers]. An
    object that nothing refers to is not kept in the store. *)
Definition __init__ (config : SinglePageRouterConfig)
    (included_paths excluded_paths : option (list string))
    (use_browser_history change_title : bool)
    (parent_router : option rid) (target_url : option string)
    (user_data : option kwargs) : M U rid :=
  let* target_url := initial_target_url config parent_router target_url in
  let base_path_elements :=
    resolve_base_path_elements (cfg_base_path config) target_url in
  let included_paths :=
    resolve_included_paths base_path_elements <$> included_paths in
  let base_path := Str.join "/" base_path_elements in
  let* self := (λ w, (Ret (next_rid w), set_next_rid (S (next_rid w)) w)) in
  let object :=
    {| u_router_config := config; u_base_path := base_path; u_user_data := user_data;
       u_child_routers := []; u_use_browser_history := use_browser_history;
       u_change_title := change_title; u_parent_router := parent_router;
       u_on_navigate := None; u_on_resolve := None; u_on_open := None |} in
  match parent_router with
  | Some p =>
      match included_paths with
      | None => raise TypeError
      | Some [] => raise IndexError
      | Some (first :: _) =>
          (λ w, (Ret tt, set_unfinished <[ self := object ]> w)) ;;
          _register_child_router p first self
      end
  | None => ret tt
  end ;;
  raise TypeError.

(** *** Notions used in the statements *)

(** A navigation hook answered null: the router's [on_navigate] hook did, or
    it let the URL through and the config's [handle_navigate] did. *)
Definition is_null (r : result (option string)) : bool :=
  match r with Ok None => true | _ => false end.

Definition vetoed (R : SinglePageRouter) (url : string) (u : U) : bool :=
  match _on_navigate R with
  | Some h =>
      match call_on_navigate h url u with
      | (Ok None, _) => true
      | (Ok (Some url'), u') => is_null (config_handle_navigate (router_config R) url' u').1
      | (Err _, _) => false
      end
  | None => is_null (config_handle_navigate (router_config R) url u).1
  end.

(** The world in which [update_content] starts the build: the title is
    written (when the frame changes titles) and the frame is emptied. *)
Definition ready_to_build (self : rid) (R : SinglePageRouter) (ttl : option string) w
    : World U :=
  set_routers <[self := emptied R]>
    (if frame_change_title (router_frame R)
     then set_log (λ l, l ++ [PageTitle (ByFrame self) (default app_title ttl)]) w
     else w).

End Router.

(** ** A concrete application

    A small instance of the environment, after the outlet example of the
    repository: a main outlet at [/] and a service outlet at
    [/services/{service_name}]. The user state is the trace of the callbacks
    that ran. *)

Module Demo.

(** Glob matching with [*] and [?]; the masks of the example use no bracket
    expressions. [glob_match pat name] is [fnmatch(name, pat)]. *)
Fixpoint glob_match (pat name : string) : bool :=
  match pat with
  | EmptyString => match name with EmptyString => true | _ => false end
  | String c pat' =>
      if Ascii.eqb c "*" then
        (fix star (name : string) : bool :=
           glob_match pat' name
           || match name with
              | EmptyString => false
              | String _ name' => star name'
              end) name
      else
        match name with
        | EmptyString => false
        | String d name' =>
            (Ascii.eqb c "?" || Ascii.eqb c d) && glob_match pat' name'
        end
  end.

Definition main_config : SinglePageRouterConfig :=
  {| cfg_id := 0; cfg_base_path := "/"; cfg_on_open := None; parent_config := None |}.

Definition services_config : SinglePageRouterConfig :=
  {| cfg_id := 1; cfg_base_path := "/services/{service_name}"; cfg_on_open := Some 5;
     parent_config := Some main_config |}.

(** Hooks of the example, by name. *)
Definition redirect_old : hook := 1.     (* on_open: answers the target of /new for /old *)
Definition confirm_leave : hook := 2.    (* on_navigate: vetoes /admin *)
Definition update_title_hook : hook := 3. (* on_open: rewrites the title *)
Definition suppress_all : hook := 4.     (* on_resolve: answers an invalid target *)
Definition config_open : hook := 5.      (* on_open of the services config *)
Definition rename_moved : hook := 6.     (* on_open: the same target under the path /new *)

Definition entry (h : option hook) : SinglePageRouterPath := {| rp_on_open := h |}.

Definition page (path : string) (b : nat) (ttl : string) (h : option hook) : SinglePageTarget :=
  {| original_path := Some path; valid := true; router := None;
     router_path := Some (entry h); target_builder := Some (UserBuilder b);
     title := Some ttl; path_args := ∅; query_args := ∅; fragment := None;
     on_pre_update := None; on_post_update := None |}.

Definition unmatched (path : string) (is_valid : bool) : SinglePageTarget :=
  {| original_path := Some path; valid := is_valid; router := None;
     router_path := None; target_builder := None;
     title := None; path_args := ∅; query_args := ∅; fragment := None;
     on_pre_update := None; on_post_update := None |}.

(** The route table of the example. *)
Definition routes (url : string) : SinglePageTarget :=
  if String.eqb url "/" then page "/" 0 "Home" None
  else if String.eqb url "/old" then page "/old" 1 "Old page" (Some redirect_old)
  else if String.eqb url "/moved" then page "/moved" 1 "Old page" (Some rename_moved)
  else if String.eqb url "/new" then page "/new" 2 "New page" None
  else if String.eqb url "/services/compute/vm" then
    page "/services/compute/vm" 3 "Virtual machines" (Some update_title_hook)
  else unmatched url true.

Definition with_title (ttl : string) (t : SinglePageTarget) : SinglePageTarget :=
  {| original_path := original_path t; valid := valid t; router := router t;
     router_path := router_path t; target_builder := target_builder t;
     title := Some ttl; path_args := path_args t; query_args := query_args t;
     fragment := fragment t; on_pre_update := on_pre_update t;
     on_post_update := on_post_update t |}.

Definition with_path (path : string) (t : SinglePageTarget) : SinglePageTarget :=
  {| original_path := Some path; valid := valid t; router := router t;
     router_path := router_path t; target_builder := target_builder t;
     title := title t; path_args := path_args t; query_args := query_args t;
     fragment := fragment t; on_pre_update := on_pre_update t;
     on_post_update := on_post_update t |}.

Definition trace := list string.

(** What a view leaves in the trace: the keys it was called with. *)
Definition built (id : nat) (kw : kwargs) : string :=
  "view " +:+ String (Ascii.ascii_of_nat (48 + id)) "" +:+ "("
  +:+ Str.join ", " (map_to_list kw).*1 +:+ ")".

#[export] Instance demo_env : Env trace := {|
  fnmatch name pat := glob_match pat name;
  app_title := "NiceGUI";
  call_on_navigate h url u :=
    (Ok (if (h =? confirm_leave)%nat && String.eqb url "/admin" then None else Some url),
     u ++ ["on_navigate"]);
  call_on_resolve h target u :=
    (Ok (if (h =? suppress_all)%nat then Some (unmatched "/hidden" false) else None),
     u ++ ["on_resolve"]);
  call_on_open h args kw u :=
    match args with
    | [] => (Err TypeError, u)
    | t :: _ =>
        if (h =? redirect_old)%nat then
          (Ok (if bool_decide (original_path t = Some "/old") then routes "/new" else t),
           u ++ ["on_open:redirect_old"])
        else if (h =? rename_moved)%nat then
          (Ok (if bool_decide (original_path t = Some "/moved") then with_path "/new" t else t),
           u ++ ["on_open:rename_moved"])
        else if (h =? update_title_hook)%nat then
          (Ok (with_title "NiceCLOUD" t), u ++ ["on_open:update_title"])
        else (Ok t, u ++ ["on_open:config"])
    end;
  config_handle_navigate cfg url u := (Ok (Some url), u);
  config_resolve_target cfg url u := (Ok (Some (routes url)), u);
  signature id := [ {| p_name := "url_path"; p_kind := POSITIONAL_OR_KEYWORD; p_has_default := true |} ];
  builder_body id kw w :=
    match ui_mount (Widget id) w with
    | (_, w') => (Ok tt, set_user (user w' ++ [built id kw]) w')
    end;
  is_coroutine_function id := false;
|}.

Definition new_frame (url : string) : RouterFrame :=
  {| frame_target_url := Some url; frame_base_path := "/";
     included_path_masks := []; excluded_path_masks := [];
     props_child_frame_paths := [];
     frame_use_browser_history := true; frame_change_title := true;
     frame_user_data := ∅; child_frame_paths := []; frame_content := [] |}.

Definition new_router (cfg : SinglePageRouterConfig) (parent : option rid)
    (children : list (string * rid)) (url : string)
    (nav res opn : option hook) : SinglePageRouter :=
  {| router_config := cfg; base_path := cfg_base_path cfg; user_data := Some ∅;
     child_routers := children; use_browser_history := true; change_title := true;
     parent_router := parent; router_frame := new_frame url;
     _on_navigate := nav; _on_resolve := res; _on_open := opn |}.

Definition world_of (rs : list (rid * SinglePageRouter)) : World trace :=
  {| routers := list_to_map rs; unfinished := ∅; next_rid := length rs; slot_stack := [];
     log := []; tasks := []; user := [] |}.

(** One router at [/] under the services config, without hooks of its own:
    the hooks are those of the route entries and of the config. *)
Definition redirecting_world : World trace :=
  world_of [(0, new_router services_config None [] "/" None None None)].

(** One router at [/] with an [on_open] hook of its own. *)
Definition hooked_world : World trace :=
  world_of [(0, new_router services_config None [] "/" None None (Some update_title_hook))].

(** One router at [/] whose [on_navigate] hook vetoes /admin. *)
Definition guarded_world : World trace :=
  world_of [(0, new_router main_config None [] "/" (Some confirm_leave) None None)].

(** One router whose [on_resolve] hook answers an invalid target. *)
Definition suppressing_world : World trace :=
  world_of [(0, new_router main_config None [] "/" None (Some suppress_all) None)].

(** A main router containing a services router, which contains a leaf. *)
Definition nested_world : World trace :=
  world_of [ (0, new_router main_config None [("/services", 1)] "/" (Some confirm_leave) None None);
             (1, new_router services_config (Some 0) [("/services/compute", 2)] "/" None None None);
             (2, new_router services_config (Some 1) [] "/" None None None) ].


End Demo.

(** ** More of the router

    The methods of [single_page_router.py] that the first part of the
    properties does not need, and notions for the second part. *)

Section RouterMethods.

Context {U : Type}.
Implicit Type w : World U.

Definition with_user_data (d : option kwargs) (R : SinglePageRouter) : SinglePageRouter :=
  {| router_config := router_config R; base_path := base_path R;
     user_data := d; child_routers := child_routers R;
     use_browser_history := use_browser_history R; change_title := change_title R;
     parent_router := parent_router R; router_frame := router_frame R;
     _on_navigate := _on_navigate R; _on_resolve := _on_resolve R;
     _on_open := _on_open R |}.

Definition with_hooks (nav res opn : option hook) (R : SinglePageRouter) : SinglePageRouter :=
  {| router_config := router_config R; base_path := base_path R;
     user_data := user_data R; child_routers := child_routers R;
     use_browser_history := use_browser_history R; change_title := change_title R;
     parent_router := parent_router R; router_frame := router_frame R;
     _on_navigate := nav; _on_resolve := res; _on_open := opn |}.

(** [SinglePageRouter.update_user_data]: [self.user_data.update(new_data)];
    a router without user data has no dictionary to update. A router holds
    its user data by value here: a dictionary that the caller shares between
    routers is not traced. *)
Definition update_user_data (self : rid) (new_data : kwargs) : M U unit :=
  method self
    (λ R, match user_data R with
          | None => raise AttributeError
          | Some d => modify_router self (with_user_data (Some (py_or d new_data)))
          end)
    (λ H, match u_user_data H with
          | None => raise AttributeError
          | Some d => modify_unfinished self (u_with_user_data (Some (py_or d new_data)))
          end).

(** [SinglePageRouter.on_navigate]; on an unfinished router the setter
    creates the attribute. *)
Definition on_navigate (self : rid) (callback : hook) : M U rid :=
  method self
    (λ _, modify_router self
            (λ R, with_hooks (Some callback) (_on_resolve R) (_on_open R) R))
    (λ _, modify_unfinished self
            (λ H, u_with_hooks (Some (Some callback)) (u_on_resolve H) (u_on_open H) H)) ;;
  ret self.

(** [SinglePageRouter.on_resolve] *)
Definition on_resolve (self : rid) (callback : hook) : M U rid :=
  method self
    (λ _, modify_router self
            (λ R, with_hooks (_on_navigate R) (Some callback) (_on_open R) R))
    (λ _, modify_unfinished self
            (λ H, u_with_hooks (u_on_navigate H) (Some (Some callback)) (u_on_open H) H)) ;;
  ret self.

(** [SinglePageRouter.on_open] *)
Definition on_open (self : rid) (callback : hook) : M U rid :=
  method self
    (λ _, modify_router self
            (λ R, with_hooks (_on_navigate R) (_on_resolve R) (Some callback) R))
    (λ _, modify_unfinished self
            (λ H, u_with_hooks (u_on_navigate H) (u_on_resolve H) (Some (Some callback)) H)) ;;
  ret self.

(** The innermost router frame of a slot stack, the top of the stack first
    as [reversed(context.slot_stack)] goes through it. *)
Fixpoint innermost_frame (stack : list slot) : option rid :=
  match stack with
  | [] => None
  | SlotFrame r :: _ => Some r
  | SlotOther :: rest => innermost_frame rest
  end.

(** [SinglePageRouter.get_current_router] *)
Definition get_current_router : M U (option rid) := λ w,
  (Ret (innermost_frame (slot_stack w)), w).

(** The value stored under a key of an insertion-ordered dictionary. *)
Fixpoint dict_get {V} (k : string) (d : list (string * V)) : option V :=
  match d with
  | [] => None
  | (k', v) :: rest => if String.eqb k' k then Some v else dict_get k rest
  end.

(** What [_register_child_router] establishes: the attribute
    [child_frame_paths] of the frame holds the paths of the child routers,
    in their order. *)
Definition paths_in_sync (R : SinglePageRouter) : Prop :=
  child_frame_paths (router_frame R) = (child_routers R).*1.

(** The routers of the slot stack are routers of the store, as object
    references are. *)
Definition stack_closed w : Prop :=
  ∀ r, SlotFrame r ∈ slot_stack w → is_Some (routers w !! r).

(** A callback that never raises [NotImplementedError]. *)
Definition never_not_implemented {A} (f : U → result A * U) : Prop :=
  ∀ u, (f u).1 ≠ Err NotImplementedError.

(** A computation that never raises [NotImplementedError]. *)
Definition not_implemented_free {A} (m : M U A) : Prop :=
  ∀ w, (m w).1 ≠ Raise NotImplementedError.

End RouterMethods.

(** ** A second application

    The portal of the outlet example with what the first instance leaves
    out: views that require a parameter (as [main_app_index] requires
    [menu_drawer] and [show_index] requires [service]), a view that is a
    coroutine function, and a router that was given no user data. *)

Module Portal.

(** Views of the portal, by name. *)
Definition main_app_index : nat := 0.   (* def main_app_index(menu_drawer) *)
Definition show_index : nat := 1.       (* def show_index(service) *)
Definition live_status : nat := 2.      (* async def live_status(url_path='/') *)

Definition required (name : string) : Param :=
  {| p_name := name; p_kind := POSITIONAL_OR_KEYWORD; p_has_default := false |}.

#[export] Instance portal_env : Env Demo.trace := {|
  fnmatch name pat := Demo.glob_match pat name;
  app_title := "NiceCLOUD Portal";
  call_on_navigate := @call_on_navigate _ Demo.demo_env;
  call_on_resolve := @call_on_resolve _ Demo.demo_env;
  call_on_open := @call_on_open _ Demo.demo_env;
  config_handle_navigate := @config_handle_navigate _ Demo.demo_env;
  config_resolve_target := @config_resolve_target _ Demo.demo_env;
  signature id :=
    if (id =? main_app_index)%nat then [required "menu_drawer"]
    else if (id =? show_index)%nat then [required "service"]
    else [ {| p_name := "url_path"; p_kind := POSITIONAL_OR_KEYWORD;
              p_has_default := true |} ];
  builder_body := @builder_body _ Demo.demo_env;
  is_coroutine_function id := (id =? live_status)%nat;
|}.

(** One router at [/] without hooks. *)
Definition plain_world : World Demo.trace :=
  Demo.world_of [(0, Demo.new_router Demo.main_config None [] "/" None None None)].

(** One router at [/] that was given no user data. *)
Definition bare_world : World Demo.trace :=
  Demo.world_of
    [(0, with_user_data None
           (Demo.new_router Demo.main_config None [] "/" None None None))].

(** The main router showing a page of a service, before the outlet of the
    service is created. *)
Definition service_page_world : World Demo.trace :=
  Demo.world_of
    [(0, Demo.new_router Demo.main_config None [] "/services/compute/vm" None None None)].

End Portal.

(** * Properties *)

(** ** Strings and in-place updates *)

Lemma split_not_nil sep s : Str.split sep s ≠ [].
Proof.
  destruct s as [|c s]; simpl; [done|].
  destruct (Ascii.eqb c sep); [done|].
  by destruct (Str.split sep s).
Qed.

Lemma split_without_sep sep s :
  Str.contains sep s = false → Str.split sep s = [s].
Proof.
  induction s as [|c s IH]; simpl; [done|].
  intros [Hc Hs]%orb_false_iff. rewrite Hc, (IH Hs). done.
Qed.

Lemma split_elements_without_sep sep s :
  Forall (λ x, Str.contains sep x = false) (Str.split sep s).
Proof.
  induction s as [|c s IH]; simpl.
  - by repeat constructor.
  - destruct (Ascii.eqb c sep) eqn:Hc.
    + by constructor.
    + destruct (Str.split sep s) as [|h t].
      * repeat constructor. simpl. by rewrite Hc.
      * inversion IH; subst. constructor; [|done]. simpl. by rewrite Hc.
Qed.

Lemma split_append sep x s :
  Str.contains sep x = false →
  Str.split sep (x +:+ String sep s) = x :: Str.split sep s.
Proof.
  induction x as [|c x IH]; simpl.
  - intros _. by rewrite Ascii.eqb_refl.
  - intros [Hc Hx]%orb_false_iff. rewrite Hc, (IH Hx). done.
Qed.

(** Splitting what was joined gives the segments back. *)
Lemma split_join l :
  l ≠ [] → Forall (λ x, Str.contains slash x = false) l →
  Str.split slash (Str.join "/" l) = l.
Proof.
  induction l as [|x l IH]; [done|]. intros _ Hall.
  inversion Hall as [|? ? Hx Hl]; subst.
  destruct l as [|y l].
  - simpl. by apply split_without_sep.
  - change (Str.join "/" (x :: y :: l)) with (x +:+ String slash (Str.join "/" (y :: l))).
    rewrite split_append by done. f_equal. by apply IH.
Qed.

Section EnumerateUpdate.
Context {A : Type} (f : nat → A → option A).

Lemma update_step_lookup acc i j :
  update_step f acc i !! j = if decide (i = j) then updated f i <$> acc !! i else acc !! j.
Proof.
  unfold update_step, updated. case_decide as Hij.
  - subst j. destruct (acc !! i) as [e|] eqn:He; simpl; [|by rewrite He].
    destruct (f i e) as [e'|]; simpl.
    + apply list_lookup_insert_eq. by eapply lookup_lt_Some.
    + done.
  - destruct (acc !! i) as [e|]; [|done].
    destruct (f i e); [|done]. by apply list_lookup_insert_ne.
Qed.

Lemma foldl_update_lookup n : ∀ a acc j,
  foldl (update_step f) acc (seq a n) !! j =
  if decide (a ≤ j < a + n)%nat then updated f j <$> acc !! j else acc !! j.
Proof.
  induction n as [|n IH]; intros a acc j; simpl.
  - case_decide; [lia|done].
  - rewrite IH, update_step_lookup.
    repeat case_decide; subst; try lia; done.
Qed.

Lemma enumerate_update_lookup l j :
  enumerate_update f l !! j = updated f j <$> l !! j.
Proof.
  unfold enumerate_update. rewrite foldl_update_lookup. case_decide as Hj; [done|].
  rewrite lookup_ge_None_2; [done|lia].
Qed.

Lemma enumerate_update_length l : length (enumerate_update f l) = length l.
Proof.
  apply Nat.le_antisymm.
  - destruct (decide (length (enumerate_update f l) ≤ length l)%nat) as [|Hn]; [done|].
    assert (is_Some (enumerate_update f l !! length l)) as [x Hx]
      by (apply lookup_lt_is_Some; lia).
    rewrite enumerate_update_lookup, lookup_ge_None_2 in Hx; [done|lia].
  - destruct (decide (length l ≤ length (enumerate_update f l))%nat) as [|Hn]; [done|].
    assert (is_Some (l !! length (enumerate_update f l))) as [x Hx]
      by (apply lookup_lt_is_Some; lia).
    pose proof (enumerate_update_lookup l (length (enumerate_update f l))) as E.
    rewrite Hx, lookup_ge_None_2 in E; [done|lia].
Qed.

End EnumerateUpdate.

(** The segments of a resolved base path. *)
Lemma resolve_base_path_elements_lookup base_path target_url i :
  resolve_base_path_elements base_path target_url !! i =
  (λ element, if is_param element
              then default element (Str.split slash target_url !! i)
              else element) <$> Str.split slash base_path !! i.
Proof.
  unfold resolve_base_path_elements. rewrite enumerate_update_lookup.
  destruct (Str.split slash base_path !! i) as [e|]; [|done]. simpl.
  unfold updated. by destruct (is_param e).
Qed.

Lemma resolve_base_path_elements_without_sep base_path target_url :
  Forall (λ x, Str.contains slash x = false)
    (resolve_base_path_elements base_path target_url).
Proof.
  apply Forall_lookup. intros i x. rewrite resolve_base_path_elements_lookup.
  destruct (Str.split slash base_path !! i) as [e|] eqn:He; [|done].
  simpl. intros [= <-].
  pose proof (split_elements_without_sep slash base_path) as Hb.
  pose proof (split_elements_without_sep slash target_url) as Ht.
  destruct (is_param e).
  - destruct (Str.split slash target_url !! i) as [u|] eqn:Hu; simpl.
    + by eapply (proj1 (Forall_lookup _ _) Ht).
    + by eapply (proj1 (Forall_lookup _ _) Hb).
  - by eapply (proj1 (Forall_lookup _ _) Hb).
Qed.

Lemma resolve_base_path_elements_not_nil base_path target_url :
  resolve_base_path_elements base_path target_url ≠ [].
Proof.
  intros E. apply (f_equal length) in E.
  unfold resolve_base_path_elements in E. rewrite enumerate_update_length in E.
  pose proof (split_not_nil slash base_path). by destruct (Str.split slash base_path).
Qed.

(** The segments of the base path a router ends up with. *)
Lemma split_resolved_base_path base_path target_url :
  Str.split slash (Str.join "/" (resolve_base_path_elements base_path target_url)) =
  resolve_base_path_elements base_path target_url.
Proof.
  apply split_join.
  - apply resolve_base_path_elements_not_nil.
  - apply resolve_base_path_elements_without_sep.
Qed.

Lemma split_resolved_included_path elements path j :
  Forall (λ x, Str.contains slash x = false) elements →
  Str.split slash (resolve_included_path elements path) !! j =
  (λ element, if String.eqb element "*" then default element (elements !! j) else element)
    <$> Str.split slash path !! j.
Proof.
  intros Hel. unfold resolve_included_path.
  rewrite split_join.
  - rewrite enumerate_update_lookup.
    destruct (Str.split slash path !! j) as [e|]; [|done]. simpl.
    unfold updated. by destruct (String.eqb e "*").
  - intros E. apply (f_equal length) in E. rewrite enumerate_update_length in E.
    pose proof (split_not_nil slash path). by destruct (Str.split slash path).
  - apply Forall_lookup. intros i x. rewrite enumerate_update_lookup.
    destruct (Str.split slash path !! i) as [e|] eqn:He; [|done].
    simpl. intros [= <-]. unfold updated.
    pose proof (split_elements_without_sep slash path) as Hp.
    destruct (String.eqb e "*").
    + destruct (elements !! i) as [u|] eqn:Hu; simpl.
      * by eapply (proj1 (Forall_lookup _ _) Hel).
      * by eapply (proj1 (Forall_lookup _ _) Hp).
    + by eapply (proj1 (Forall_lookup _ _) Hp).
Qed.

Lemma resolve_included_paths_lookup elements paths k :
  resolve_included_paths elements paths !! k =
  resolve_included_path elements <$> paths !! k.
Proof.
  unfold resolve_included_paths. rewrite enumerate_update_lookup.
  by destruct (paths !! k).
Qed.

(** ** Computations *)

Lemma config_parent_ind (P : SinglePageRouterConfig → Prop) :
  (∀ c, (∀ p, parent_config c = Some p → P p) → P c) → ∀ c, P c.
Proof.
  intros step. fix IH 1. intros [i b o [p|]]; apply step; simpl.
  - intros q [= <-]. apply IH.
  - intros q [=].
Qed.

Section Laws.

Context {U : Type}.
Implicit Types (w : World U) (u : U).

Lemma set_user_same w : set_user (user w) w = w.
Proof. by destruct w. Qed.

Lemma bind_ret {A B} (m : M U A) (k : A → M U B) w a w' :
  m w = (Ret a, w') → bind m k w = k a w'.
Proof. intros E. unfold bind. by rewrite E. Qed.

Lemma bind_ret_l {A B} (a : A) (k : A → M U B) w : bind (ret a) k w = k a w.
Proof. done. Qed.

Lemma bind_assoc {A B C} (m : M U A) (k : A → M U B) (k' : B → M U C) w :
  bind (bind m k) k' w = bind m (λ a, bind (k a) k') w.
Proof. unfold bind. by destruct (m w) as [[a|e|] w']. Qed.

Lemma bind_ext {A B} (m : M U A) (k k' : A → M U B) w :
  (∀ a w', k a w' = k' a w') → bind m k w = bind m k' w.
Proof. intros E. unfold bind. by destruct (m w) as [[a|e|] w']. Qed.

Lemma bind_ext_ret {A B} (m : M U A) (k k' : A → M U B) w :
  (∀ a w', m w = (Ret a, w') → k a w' = k' a w') → bind m k w = bind m k' w.
Proof. intros E. unfold bind. destruct (m w) as [[a|e|] w']; [by apply E|done..]. Qed.

Lemma get_router_ok self w R :
  routers w !! self = Some R → get_router self w = (Ret R, w).
Proof. intros E. unfold get_router. by rewrite E. Qed.

Lemma get_router_inv self w R w' :
  get_router self w = (Ret R, w') → routers w !! self = Some R ∧ w' = w.
Proof.
  unfold get_router. destruct (routers w !! self); [|done]. by intros [= -> ->].
Qed.

Lemma modify_router_ok self f w R :
  routers w !! self = Some R →
  modify_router self f w = (Ret tt, set_routers <[self := f R]> w).
Proof. intros HR. unfold modify_router. by rewrite HR. Qed.

Lemma method_constructed {A} self (c : SinglePageRouter → M U A)
    (h : Unfinished → M U A) w R :
  routers w !! self = Some R → method self c h w = c R w.
Proof. intros HR. unfold method. by rewrite HR. Qed.

Lemma method_unfinished {A} self (c : SinglePageRouter → M U A)
    (h : Unfinished → M U A) w H :
  routers w !! self = None → unfinished w !! self = Some H →
  method self c h w = h H w.
Proof. intros HR HH. unfold method. by rewrite HR, HH. Qed.

(** Computations on the user state only. *)

Lemma user_only_ret {A} (a : A) : user_only (@ret U A a).
Proof. intros w. exists (Ret a), (user w). by rewrite set_user_same. Qed.

Lemma user_only_raise {A} e : user_only (@raise U A e).
Proof. intros w. exists (Raise e), (user w). by rewrite set_user_same. Qed.

Lemma user_only_lift_user {A} (f : U → result A * U) : user_only (lift_user f).
Proof.
  intros w. unfold lift_user. destruct (f (user w)) as [[a|e] u].
  - by exists (Ret a), u.
  - by exists (Raise e), u.
Qed.

Lemma user_only_get_router self : user_only (@get_router U self).
Proof.
  intros w. unfold get_router. destruct (routers w !! self) as [R|].
  - exists (Ret R), (user w). by rewrite set_user_same.
  - exists (Raise DanglingReference), (user w). by rewrite set_user_same.
Qed.

Lemma user_only_method {A} self (c : SinglePageRouter → M U A) (h : Unfinished → M U A) :
  (∀ R, user_only (c R)) → (∀ H, user_only (h H)) → user_only (method self c h).
Proof.
  intros Hc Hh w. unfold method.
  destruct (routers w !! self) as [R|]; [apply Hc|].
  destruct (unfinished w !! self) as [H|]; [apply Hh|].
  exists (Raise DanglingReference), (user w). by rewrite set_user_same.
Qed.

Lemma user_only_require_dict d : user_only (@require_dict U d).
Proof. destruct d; [apply user_only_ret|apply user_only_raise]. Qed.

Lemma user_only_bind {A B} (m : M U A) (k : A → M U B) :
  user_only m → (∀ a, user_only (k a)) → user_only (bind m k).
Proof.
  intros Hm Hk w. destruct (Hm w) as (o & u & Ho & E). unfold bind. rewrite E.
  destruct o as [a|e|]; [|by exists (Raise e), u|done].
  destruct (Hk a (set_user u w)) as (o' & u' & Ho' & E').
  exists o', u'. by rewrite E'.
Qed.

Lemma user_only_world {A} (m : M U A) w o w' :
  user_only m → m w = (o, w') → ∃ u, w' = set_user u w.
Proof. intros Hm E. destruct (Hm w) as (o' & u & _ & E'). exists u. congruence. Qed.

End Laws.

Create HintDb user_only.
#[export] Hint Resolve user_only_ret user_only_raise user_only_lift_user
  user_only_get_router user_only_require_dict : user_only.

(** Goes through a computation made of binds and case distinctions whose
    steps are in the hint base. *)
Ltac user_only :=
  repeat first
    [ solve [eauto with user_only]
    | apply user_only_bind; [|intros ?]
    | apply user_only_method; intros ?
    | match goal with
      | |- user_only (match ?x with _ => _ end) => destruct x
      | |- user_only (if ?b then _ else _) => destruct b
      end ].

Section Proofs.

Context {U : Type} `{!Env U}.
Implicit Types (w : World U) (u : U).

(** *** [resolve_target]: what a call does with its recursive call *)

Lemma config_on_open_loop_unfold restart path config target :
  config_on_open_loop restart path config target =
  let next target :=
    match parent_config config with
    | Some parent => config_on_open_loop restart path parent target
    | None => ret target
    end in
  match cfg_on_open config with
  | Some h =>
      let* target := lift_user (call_on_open h [target] ∅) in
      if bool_decide (original_path target ≠ path) then restart target
      else next target
  | None => next target
  end.
Proof. by destruct config. Qed.

Lemma config_on_open_loop_settles path config : ∀ target w,
  settles (λ restart, config_on_open_loop restart path config target) w.
Proof.
  induction config as [c IH] using config_parent_ind. intros target w.
  assert (∀ t w, settles (λ restart,
            match parent_config c with
            | Some parent => config_on_open_loop restart path parent t
            | None => ret t
            end) w) as Hnext.
  { intros t w0. destruct (parent_config c) as [p|] eqn:Hp.
    - by apply IH.
    - left. exists (Ret t), (user w0). split; [done|]. intros _.
      by rewrite set_user_same. }
  destruct (cfg_on_open c) as [h|] eqn:Hh.
  - destruct (call_on_open h [target] ∅ (user w)) as [[t|e] u] eqn:E.
    + destruct (bool_decide (original_path t ≠ path)) eqn:Hd.
      * right. exists t, u. intros restart.
        rewrite config_on_open_loop_unfold, Hh. unfold bind, lift_user.
        cbv zeta. rewrite E, Hd. done.
      * destruct (Hnext t (set_user u w)) as [(o & u' & Ho & Hb)|(t' & u' & Hb)].
        -- left. exists o, u'. split; [done|]. intros restart.
           rewrite config_on_open_loop_unfold, Hh. unfold bind, lift_user.
           cbv zeta. rewrite E, Hd. apply Hb.
        -- right. exists t', u'. intros restart.
           rewrite config_on_open_loop_unfold, Hh. unfold bind, lift_user.
           cbv zeta. rewrite E, Hd. apply Hb.
    + left. exists (Raise e), u. split; [done|]. intros restart.
      rewrite config_on_open_loop_unfold, Hh. unfold bind, lift_user.
      cbv zeta. by rewrite E.
  - destruct (Hnext target w) as [(o & u' & Ho & Hb)|(t' & u' & Hb)].
    + left. exists o, u'. split; [done|]. intros restart.
      rewrite config_on_open_loop_unfold, Hh. apply Hb.
    + right. exists t', u'. intros restart.
      rewrite config_on_open_loop_unfold, Hh. apply Hb.
Qed.

Lemma user_only_try_handler h target : user_only (try_handler h target).
Proof. unfold try_handler. user_only. Qed.

Lemma user_only_try_on_resolve R target : user_only (try_on_resolve R target).
Proof. apply user_only_try_handler. Qed.

#[local] Hint Resolve user_only_try_handler user_only_try_on_resolve : user_only.

Lemma settles_const (m : M U SinglePageTarget) w :
  user_only m → settles (λ _, m) w.
Proof. intros Hm. destruct (Hm w) as (o & u & Ho & E). left. by exists o, u. Qed.

Lemma settles_restart t w : settles (λ restart, restart t) w.
Proof. right. exists t, (user w). intros restart. by rewrite set_user_same. Qed.

Lemma settles_bind {A} (m : M U A)
    (k : (SinglePageTarget → M U SinglePageTarget) → A → M U SinglePageTarget) w :
  user_only m → (∀ a w', settles (λ restart, k restart a) w') →
  settles (λ restart, bind m (k restart)) w.
Proof.
  intros Hm Hk. destruct (Hm w) as (o & u & Ho & E).
  destruct o as [a|e|]; [| |done].
  - destruct (Hk a (set_user u w)) as [(o' & u' & Ho' & Hb)|(t & u' & Hb)].
    + left. exists o', u'. split; [done|]. intros restart.
      unfold bind. rewrite E. apply Hb.
    + right. exists t, u'. intros restart. unfold bind. rewrite E. apply Hb.
  - left. exists (Raise e), u. split; [done|]. intros restart.
    unfold bind. by rewrite E.
Qed.

Lemma settles_method self
    (c : (SinglePageTarget → M U SinglePageTarget) → SinglePageRouter → M U SinglePageTarget)
    (h : (SinglePageTarget → M U SinglePageTarget) → Unfinished → M U SinglePageTarget) w :
  (∀ R, settles (λ restart, c restart R) w) →
  (∀ H, settles (λ restart, h restart H) w) →
  settles (λ restart, method self (c restart) (h restart)) w.
Proof.
  intros Hc Hh. unfold settles, method.
  destruct (routers w !! self) as [R|]; [exact (Hc R)|].
  destruct (unfinished w !! self) as [H|]; [exact (Hh H)|].
  left. exists (Raise DanglingReference), (user w). split; [done|]. intros _.
  by rewrite set_user_same.
Qed.

Lemma run_on_open_hooks_settles on_open config ud target w :
  settles (λ restart, run_on_open_hooks restart on_open config ud target) w.
Proof.
  unfold run_on_open_hooks.
  assert (∀ t w', settles (λ restart,
            match router_path t with
            | None => raise AttributeError
            | Some rp =>
                match rp_on_open rp with
                | Some h =>
                    let* ud0 := require_dict ud in
                    let* target0 := lift_user (call_on_open h [t] ud0) in
                    if bool_decide (original_path target0 ≠ original_path target)
                    then restart target0
                    else config_on_open_loop restart (original_path target) config target0
                | None => config_on_open_loop restart (original_path target) config t
                end
            end) w') as Hafter.
  { intros t w'. destruct (router_path t) as [rp|].
    - destruct (rp_on_open rp) as [h|].
      + apply settles_bind; [apply user_only_require_dict|]. intros ud0 w1.
        apply settles_bind; [apply user_only_lift_user|]. intros t1 w2.
        destruct (bool_decide _); [apply settles_restart|apply config_on_open_loop_settles].
      + apply config_on_open_loop_settles.
    - apply settles_const, user_only_raise. }
  destruct on_open as [[h|]|]; [apply settles_const, user_only_raise|apply Hafter|
                                apply settles_const, user_only_raise].
Qed.

Lemma resolve_target_with_settles on_resolve on_open config self target ud w :
  settles (λ restart, resolve_target_with on_resolve on_open config restart self target ud) w.
Proof.
  unfold resolve_target_with.
  apply settles_bind; [apply user_only_try_handler|].
  intros [t|] w2; [apply settles_const, user_only_ret|].
  destruct target as [url|t]; [|apply settles_const, user_only_ret].
  apply settles_bind; [apply user_only_lift_user|]. intros [t|] w3.
  - destruct (router_path (claim_target self t)).
    + apply run_on_open_hooks_settles.
    + apply settles_const, user_only_ret.
  - apply settles_const, user_only_raise.
Qed.

Lemma resolve_target_body_settles self target ud w :
  settles (λ restart, resolve_target_body restart self target ud) w.
Proof.
  unfold resolve_target_body.
  apply (settles_method self
           (λ restart R, resolve_target_with (_on_resolve R) (Some (_on_open R))
                           (router_config R) restart self target ud)
           (λ restart H, match u_on_resolve H with
                         | Some on_resolve =>
                             resolve_target_with on_resolve (u_on_open H)
                               (u_router_config H) restart self target ud
                         | None => raise AttributeError
                         end)).
  - intros R. apply resolve_target_with_settles.
  - intros H0. destruct (u_on_resolve H0); [apply resolve_target_with_settles|].
    apply settles_const, user_only_raise.
Qed.

(** A call on a target does not use its recursive call. *)
Lemma resolve_target_of_target n self t ud w :
  resolve_target (S n) self (TTarget t) ud w = resolve_target 1 self (TTarget t) ud w.
Proof. reflexivity. Qed.

Lemma resolve_target_of_target_returns self t ud w :
  (resolve_target 1 self (TTarget t) ud w).1 ≠ OutOfFuel
  ∧ ∃ u, (resolve_target 1 self (TTarget t) ud w).2 = set_user u w.
Proof.
  assert (user_only (resolve_target 1 self (TTarget t) ud)) as Hu.
  { simpl. unfold resolve_target_body, resolve_target_with. user_only. }
  destruct (Hu w) as (o & u & Ho & E). rewrite E. split; [done|by exists u].
Qed.

Lemma resolve_target_fuel n self target ud w :
  resolve_target (S (S n)) self target ud w = resolve_target 2 self target ud w.
Proof.
  change (resolve_target_body (λ t, resolve_target (S n) self (TTarget t) ud) self target ud w
          = resolve_target_body (λ t, resolve_target 1 self (TTarget t) ud) self target ud w).
  destruct (resolve_target_body_settles self target ud w)
    as [(o & u & Ho & Hb)|(t & u & Hb)].
  - by rewrite !Hb.
  - rewrite !Hb. apply resolve_target_of_target.
Qed.

Lemma resolve_target_user_only self target ud :
  user_only (resolve_target 2 self target ud).
Proof.
  intros w.
  change (resolve_target 2 self target ud w)
    with (resolve_target_body (λ t, resolve_target 1 self (TTarget t) ud) self target ud w).
  destruct (resolve_target_body_settles self target ud w)
    as [(o & u & Ho & Hb)|(t & u & Hb)].
  - exists o, u. by rewrite Hb.
  - rewrite Hb.
    destruct (resolve_target_of_target_returns self t ud (set_user u w)) as [Ho [u' Hw]].
    destruct (resolve_target 1 self (TTarget t) ud (set_user u w)) as [o w'].
    simpl in *. subst w'. by exists o, u'.
Qed.

(** *** The hooks of [resolve_target] run as a chain *)

Lemma run_chain_cons path (h : SinglePageTarget → M U SinglePageTarget) remaining
    (k : chain_result → M U SinglePageTarget) target w :
  bind (run_chain path (h :: remaining) target) k w =
  bind (h target)
    (λ t, if bool_decide (original_path t ≠ path) then k (Redirected t)
          else bind (run_chain path remaining t) k) w.
Proof.
  simpl. rewrite bind_assoc. apply bind_ext. intros t w'.
  by destruct (bool_decide _).
Qed.

Lemma config_on_open_loop_run_chain restart path config : ∀ target w,
  original_path target = path →
  config_on_open_loop restart path config target w =
  bind (run_chain path (config_on_open <$> config_chain config) target)
       (restart_or_return restart) w.
Proof.
  induction config as [c IH] using config_parent_ind. intros target w Hpath.
  assert (config_chain c = c :: match parent_config c with
                                | Some parent => config_chain parent
                                | None => []
                                end) as -> by by destruct c.
  rewrite fmap_cons, run_chain_cons, config_on_open_loop_unfold. cbv zeta.
  assert (∀ t w', original_path t = path →
            match parent_config c with
            | Some parent => config_on_open_loop restart path parent t
            | None => ret t
            end w' =
            bind (run_chain path
                    (config_on_open <$> match parent_config c with
                                        | Some parent => config_chain parent
                                        | None => []
                                        end) t) (restart_or_return restart) w') as Hnext.
  { intros t w' Ht. destruct (parent_config c) as [p|] eqn:Hp; [by apply IH|done]. }
  change (config_on_open c target)
    with (match cfg_on_open c with
          | Some h => lift_user (call_on_open h [target] ∅)
          | None => ret target
          end).
  destruct (cfg_on_open c) as [h|].
  - apply bind_ext. intros t w'.
    destruct (bool_decide (original_path t ≠ path)) eqn:Hd; [done|].
    apply Hnext. apply bool_decide_eq_false in Hd.
    by destruct (decide (original_path t = path)).
  - rewrite bind_ret_l.
    rewrite bool_decide_eq_false_2 by (by intros ?). by apply Hnext.
Qed.

(** The three blocks of hooks in [resolve_target] are the chain of the
    specification, run with its loop-breaking rule. *)
Lemma run_on_open_hooks_run_chain restart R ud target w :
  run_on_open_hooks restart (Some (_on_open R)) (router_config R) ud target w =
  bind (run_chain (original_path target) (on_open_chain R ud) target)
       (restart_or_return restart) w.
Proof.
  unfold on_open_chain, run_on_open_hooks.
  set (path := original_path target).
  assert (∀ t w', original_path t = path →
            match router_path t with
            | None => raise AttributeError
            | Some rp =>
                match rp_on_open rp with
                | Some h =>
                    let* ud0 := require_dict ud in
                    let* target0 := lift_user (call_on_open h [t] ud0) in
                    if bool_decide (original_path target0 ≠ path)
                    then restart target0
                    else config_on_open_loop restart path (router_config R) target0
                | None => config_on_open_loop restart path (router_config R) t
                end
            end w' =
            bind (run_chain path (route_entry_on_open ud
                                  :: (config_on_open <$> config_chain (router_config R))) t)
                 (restart_or_return restart) w') as Hafter.
  { intros t w' Ht. rewrite run_chain_cons. unfold route_entry_on_open.
    destruct (router_path t) as [rp|]; [|done].
    destruct (rp_on_open rp) as [h|].
    - rewrite bind_assoc. apply bind_ext. intros ud0 w1.
      apply bind_ext. intros t1 w2.
      destruct (bool_decide (original_path t1 ≠ path)) eqn:Hd; [done|].
      apply config_on_open_loop_run_chain. apply bool_decide_eq_false in Hd.
      by destruct (decide (original_path t1 = path)).
    - rewrite bind_ret_l.
      rewrite bool_decide_eq_false_2 by (by intros ?).
      by apply config_on_open_loop_run_chain. }
  rewrite run_chain_cons. unfold router_on_open.
  destruct (_on_open R) as [h|]; [done|].
  - rewrite bind_ret_l.
    rewrite bool_decide_eq_false_2 by (by intros ?). by apply Hafter.
Qed.

(** The chain stops at the first hook that changes the path: the hooks after
    it do not matter. *)
Lemma run_chain_stops path pre (h : SinglePageTarget → M U SinglePageTarget) remaining :
  ∀ target w t1 w1 t' w',
  run_chain path pre target w = (Ret (Opened t1), w1) →
  h t1 w1 = (Ret t', w') →
  original_path t' ≠ path →
  run_chain path (pre ++ h :: remaining) target w = (Ret (Redirected t'), w').
Proof.
  induction pre as [|g pre IH]; intros target w t1 w1 t' w' Hpre Hh Hne.
  - simpl in *. injection Hpre as <- <-. unfold bind. rewrite Hh.
    by rewrite bool_decide_eq_true_2.
  - simpl in *. unfold bind in *.
    destruct (g target w) as [[t|e|] w0]; [|done..].
    destruct (bool_decide (original_path t ≠ path)); [done|].
    by eapply IH.
Qed.

Lemma user_only_on_open_chain R ud h t :
  h ∈ on_open_chain R ud → user_only (h t).
Proof.
  unfold on_open_chain. rewrite !elem_of_cons, list_elem_of_fmap.
  intros [->|[->|(c & -> & _)]].
  - unfold router_on_open. user_only.
  - unfold route_entry_on_open. user_only.
  - unfold config_on_open. user_only.
Qed.

Lemma user_only_run_chain path (hooks : list (SinglePageTarget → M U SinglePageTarget)) :
  ∀ t, (∀ h t, h ∈ hooks → user_only (h t)) → user_only (run_chain path hooks t).
Proof.
  induction hooks as [|h hooks IH]; intros t Hh; simpl; [apply user_only_ret|].
  apply user_only_bind; [apply Hh; by left|]. intros t1.
  destruct (bool_decide _); [apply user_only_ret|].
  apply IH. intros h' t' Hin. apply Hh. by right.
Qed.

(** C1: when a hook of the chain hands back a target whose [original_path]
    differs from the path that went in, [resolve_target] restarts on that
    target: the hooks after it are not run, and the call is the recursive
    call on the hook's target. The recursive call does not resolve the new
    path: without a custom [on_resolve] handler it returns the hook's target
    as it is (line 106), so a hook answering /old with a target of the path
    /new makes [resolve_target] return that target, whose [original_path] is
    /new. *)
Theorem resolve_target_restarts_on_redirect
    n self url ud w R w0 t0 w1 pre h remaining t1 w2 t' w3 :
  routers w !! self = Some R →
  try_on_resolve R (TStr url) w = (Ret None, w0) →
  lift_user (config_resolve_target (router_config R) url) w0 = (Ret (Some t0), w1) →
  is_Some (router_path (claim_target self t0)) →
  on_open_chain R ud = pre ++ h :: remaining →
  run_chain (original_path (claim_target self t0)) pre (claim_target self t0) w1
    = (Ret (Opened t1), w2) →
  h t1 w2 = (Ret t', w3) →
  original_path t' ≠ original_path (claim_target self t0) →
  resolve_target (S (S n)) self (TStr url) ud w
    = resolve_target (S n) self (TTarget t') ud w3
  ∧ (_on_resolve R = None →
     resolve_target (S (S n)) self (TStr url) ud w = (Ret t', w3)).
Proof.
  intros HR Hres Hcfg [rp Hrp] Hchain Hpre Hh Hne.
  assert (resolve_target (S (S n)) self (TStr url) ud w
          = resolve_target (S n) self (TTarget t') ud w3) as Hrestart.
  { change (resolve_target (S (S n)) self (TStr url) ud w)
      with (resolve_target_body (λ t, resolve_target (S n) self (TTarget t) ud)
              self (TStr url) ud w).
    unfold resolve_target_body. rewrite (method_constructed _ _ _ _ _ HR).
    unfold resolve_target_with.
    change (try_handler (_on_resolve R) (TStr url)) with (try_on_resolve R (TStr url)).
    rewrite (bind_ret _ _ _ _ _ Hres). cbv beta iota.
    rewrite (bind_ret _ _ _ _ _ Hcfg). cbv beta iota zeta. rewrite Hrp.
    rewrite run_on_open_hooks_run_chain, Hchain.
    by rewrite (bind_ret _ _ _ _ _ (run_chain_stops _ _ _ _ _ _ _ _ _ _ Hpre Hh Hne)). }
  split; [done|]. intros Hnone. rewrite Hrestart.
  assert (∃ u, w3 = set_user u w) as [u ->].
  { destruct (user_only_world _ _ _ _ (user_only_try_on_resolve _ _) Hres) as [u0 ->].
    destruct (user_only_world _ _ _ _ (user_only_lift_user _) Hcfg) as [u1 ->].
    assert (∀ g, g ∈ pre ++ h :: remaining → ∀ t, user_only (g t)) as Hall.
    { intros g Hg t. apply (user_only_on_open_chain R ud). by rewrite Hchain. }
    assert (user_only (run_chain (original_path (claim_target self t0)) pre
                         (claim_target self t0))) as Hrun.
    { apply user_only_run_chain. intros g t Hg. apply Hall, elem_of_app. by left. }
    destruct (user_only_world _ _ _ _ Hrun Hpre) as [u2 ->].
    assert (user_only (h t1)) as Hh1.
    { apply Hall, elem_of_app. right. by left. }
    destruct (user_only_world _ _ _ _ Hh1 Hh) as [u3 ->]. by exists u3. }
  simpl. unfold resolve_target_body.
  rewrite (method_constructed _ _ _ (set_user u w) R) by done.
  unfold resolve_target_with. by rewrite Hnone.
Qed.

(** C6: the re-resolution that a redirecting hook triggers is bounded. The
    recursive call receives a target, which [resolve_target] hands back
    without resolving again, so a call nests at most one further call: depth
    two is enough whatever the hooks do, and in particular the depth
    [PATH_RESOLVING_MAX_RECURSION] is never exhausted. *)
Theorem resolve_target_recursion_bounded n self target ud w :
  resolve_target (S (S n)) self target ud w = resolve_target 2 self target ud w
  ∧ (resolve_target (S (S n)) self target ud w).1 ≠ OutOfFuel
  ∧ (resolve_target PATH_RESOLVING_MAX_RECURSION self target ud w).1 ≠ OutOfFuel.
Proof.
  assert ((resolve_target 2 self target ud w).1 ≠ OutOfFuel) as Hret.
  { destruct (resolve_target_user_only self target ud w) as (o & u & Ho & E).
    by rewrite E. }
  split; [apply resolve_target_fuel|]. split.
  - by rewrite resolve_target_fuel.
  - unfold PATH_RESOLVING_MAX_RECURSION. by rewrite resolve_target_fuel.
Qed.

(** C10: when [navigate_to] is given a target instead of a URL, it goes
    straight to the resolution: neither the child routers nor the
    [on_navigate] hooks are consulted. Without a custom [on_resolve] handler,
    [resolve_target] hands the target back as it is and runs no hook. *)
Theorem navigate_to_target_skips_hooks n self t server_side sync history w :
  navigate_to (S n) self (TTarget t) server_side sync history w
    = navigate_resolved n self (TTarget t) sync history w
  ∧ ∀ R m ud, routers w !! self = Some R → _on_resolve R = None →
      resolve_target (S m) self (TTarget t) ud w = (Ret t, w).
Proof.
  split; [done|]. intros R m ud HR Hnone. simpl. unfold resolve_target_body.
  rewrite (method_constructed _ _ _ _ _ HR).
  unfold resolve_target_with. by rewrite Hnone.
Qed.

End Proofs.

(** *** What a navigation leaves behind *)

Section Effects.

Context {U : Type} `{!Env U}.
Implicit Types (w : World U) (u : U).

Lemma resolve_target_world fuel self target ud : ∀ w o w',
  resolve_target fuel self target ud w = (o, w') → ∃ u, w' = set_user u w.
Proof.
  induction fuel as [|fuel IH]; intros w o w'.
  - intros [= _ <-]. exists (user w). by rewrite set_user_same.
  - simpl.
    destruct (resolve_target_body_settles self target ud w)
      as [(o1 & u & Ho & Hb)|(t & u & Hb)]; rewrite Hb.
    + intros [= _ <-]. by exists u.
    + destruct fuel as [|fuel].
      * intros [= _ <-]. by exists u.
      * rewrite resolve_target_of_target.
        destruct (resolve_target_of_target_returns self t ud (set_user u w)) as [_ [u' E]].
        intros E'. rewrite E' in E. simpl in E. subst w'. by exists u'.
Qed.

Lemma user_data_of_world r w : ∃ o, user_data_of r w = (o, w) ∧ o ≠ OutOfFuel.
Proof.
  unfold user_data_of, method.
  destruct (routers w !! r); [by eexists|]. destruct (unfinished w !! r); by eexists.
Qed.

(** [get_user_data] reads the world and leaves it as it is. *)
Lemma get_user_data_world w : ∃ o, get_user_data w = (o, w) ∧ o ≠ OutOfFuel.
Proof.
  unfold get_user_data. generalize (slot_stack w) as stack.
  induction stack as [|s stack IH]; simpl; [by exists (Ret ∅)|].
  unfold bind at 1. destruct IH as (o & -> & Ho).
  destruct o as [d|e|]; [|by eexists|done].
  destruct s as [r0|]; [|by eexists].
  unfold bind. destruct (user_data_of_world r0 w) as (o & -> & Ho').
  destruct o as [[d0|]|e|]; try done; by eexists.
Qed.

Lemma user_only_handle_navigate_with h config url :
  user_only (handle_navigate_with h config url).
Proof. unfold handle_navigate_with. user_only. Qed.

Lemma user_only_handle_navigate self url : user_only (handle_navigate self url).
Proof.
  unfold handle_navigate. apply user_only_method.
  - intros R. apply user_only_handle_navigate_with.
  - intros H0. destruct (u_on_navigate H0); [apply user_only_handle_navigate_with|].
    apply user_only_raise.
Qed.

(** Line 273 raises for every router. *)
Lemma assign_target_url_raises cur url w :
  ∃ e, assign_target_url cur url w = (Raise e, w).
Proof.
  unfold assign_target_url, method.
  destruct (routers w !! cur); [by eexists|]. destruct (unfinished w !! cur); by eexists.
Qed.

Lemma update_target_url_raises self url w R :
  routers w !! self = Some R →
  _update_target_url self url w = (Raise AttributeError, w).
Proof.
  intros HR. unfold _update_target_url, PATH_RESOLVING_MAX_RECURSION.
  cbn [_update_target_url_loop]. unfold bind at 1, assign_target_url.
  by rewrite (method_constructed _ _ _ _ _ HR).
Qed.

(** Lines 174-200 never get past line 176. *)
Lemma show_target_raises self R target handler_kwargs sync history w :
  routers w !! self = Some R →
  show_target self R target handler_kwargs sync history w = (Raise AttributeError, w).
Proof.
  intros HR. unfold show_target. unfold bind at 1.
  by rewrite (update_target_url_raises _ _ _ _ HR).
Qed.

Lemma navigate_resolved_constructed fuel self target sync history w R inherited own :
  routers w !! self = Some R →
  get_user_data w = (Ret inherited, w) →
  user_data R = Some own →
  navigate_resolved fuel self target sync history w
  = match resolve_target fuel self target
            (Some (initial_handler_kwargs R inherited own target)) w with
    | (Ret t, w1) => if valid t then (Raise AttributeError, w1) else (Ret tt, w1)
    | (Raise e, w1) => (Raise e, w1)
    | (OutOfFuel, w1) => (OutOfFuel, w1)
    end.
Proof.
  intros HR Hdata Hown. unfold navigate_resolved.
  rewrite (method_constructed _ _ _ _ _ HR).
  rewrite (bind_ret _ _ _ _ _ Hdata). rewrite Hown.
  change (require_dict (Some own)) with (@ret U _ own). rewrite bind_ret_l.
  unfold bind at 1.
  destruct (resolve_target fuel self target _ w) as [[t|e|] w1] eqn:Hres; [|done|done].
  destruct (valid t); [|done]. simpl.
  destruct (resolve_target_world _ _ _ _ _ _ _ Hres) as [u ->].
  by apply show_target_raises.
Qed.

(** Whatever a navigation does, it changes nothing but the user's own
    state. *)
Lemma navigate_resolved_world fuel self target sync history w o w' :
  navigate_resolved fuel self target sync history w = (o, w') →
  ∃ u, w' = set_user u w.
Proof.
  unfold navigate_resolved, method.
  destruct (routers w !! self) as [R|] eqn:HR.
  - unfold bind at 1. destruct (get_user_data_world w) as (o1 & -> & _).
    destruct o1 as [inherited|e|].
    2,3: intros [= _ <-]; exists (user w); by rewrite set_user_same.
    unfold bind at 1. destruct (user_data R) as [own|]; simpl.
    2: intros [= _ <-]; exists (user w); by rewrite set_user_same.
    unfold bind at 1.
    destruct (resolve_target fuel self target _ w) as [[t|e|] w1] eqn:Hres.
    2,3: intros [= _ <-]; by eapply resolve_target_world.
    destruct (resolve_target_world _ _ _ _ _ _ _ Hres) as [u ->].
    destruct (valid t); simpl.
    + rewrite show_target_raises by done. intros [= _ <-]. by exists u.
    + intros [= _ <-]. by exists u.
  - destruct (unfinished w !! self) as [H0|].
    + unfold bind at 1. destruct (get_user_data_world w) as (o1 & -> & _).
      destruct o1 as [inherited|e|].
      2,3: intros [= _ <-]; exists (user w); by rewrite set_user_same.
      destruct (u_user_data H0); simpl; intros [= _ <-];
        exists (user w); by rewrite set_user_same.
    + intros [= _ <-]. exists (user w). by rewrite set_user_same.
Qed.

(** With depth for the resolution, lines 168-200 come back. *)
Lemma navigate_resolved_comes_back n self target sync history w :
  (navigate_resolved (S (S n)) self target sync history w).1 ≠ OutOfFuel.
Proof.
  unfold navigate_resolved, method.
  destruct (routers w !! self) as [R|] eqn:HR.
  - unfold bind at 1. destruct (get_user_data_world w) as (o1 & -> & Ho1).
    destruct o1 as [inherited|e|]; [|done|done].
    destruct (user_data R) as [own|]; [|done].
    change (require_dict (Some own)) with (@ret U _ own). rewrite bind_ret_l.
    unfold bind at 1. rewrite resolve_target_fuel.
    destruct (resolve_target_user_only self target
                (Some (initial_handler_kwargs R inherited own target)) w)
      as (o & u & Ho & ->).
    destruct o as [t|e|]; [|done|done].
    destruct (valid t); simpl; [|done].
    by rewrite show_target_raises.
  - destruct (unfinished w !! self) as [H0|]; [|done].
    unfold bind at 1. destruct (get_user_data_world w) as (o1 & -> & Ho1).
    destruct o1 as [inherited|e|]; [|done|done].
    by destruct (u_user_data H0).
Qed.

Lemma child_routers_of_world r w o w' :
  child_routers_of r w = (o, w') → w' = w.
Proof.
  unfold child_routers_of, method.
  destruct (routers w !! r); [by intros [= _ <-]|].
  destruct (unfinished w !! r); by intros [= _ <-].
Qed.

Lemma navigate_to_world fuel : ∀ self target server_side sync history w o w',
  navigate_to fuel self target server_side sync history w = (o, w') →
  ∃ u, w' = set_user u w.
Proof.
  induction fuel as [|fuel IH]; intros self target server_side sync history w o w'.
  - intros [= _ <-]. exists (user w). by rewrite set_user_same.
  - destruct target as [url|t]; simpl; [|apply navigate_resolved_world].
    unfold bind at 1.
    destruct (child_routers_of self w) as [[children|e|] w0] eqn:Hc;
      apply child_routers_of_world in Hc; subst w0.
    2,3: intros [= _ <-]; exists (user w); by rewrite set_user_same.
    destruct (delegated_call children url server_side) as [c|]; [apply IH|].
    unfold bind at 1.
    destruct (user_only_handle_navigate self url w) as (o1 & u & Ho1 & ->).
    destruct o1 as [[url'|]|e|]; [| | |done].
    2,3: intros [= _ <-]; by exists u.
    intros (u' & ->)%navigate_resolved_world. by exists u'.
Qed.

End Effects.

(** *** Navigation *)

Section Navigation.

Context {U : Type} `{!Env U}.
Implicit Types (w : World U) (u : U).

(** *** Delegation to child routers *)

Lemma find_child_router_first url pre mask child post :
  Forall (λ mc, mask_matches url mc.1 = false) pre →
  mask_matches url mask = true →
  find_child_router url (pre ++ (mask, child) :: post) = Some child.
Proof.
  induction pre as [|[m c] pre IH]; intros Hpre Hm; simpl.
  - by rewrite Hm.
  - inversion Hpre as [|? ? Hmc Hrest]; subst. simpl in Hmc. rewrite Hmc. by apply IH.
Qed.

Lemma find_child_router_Some url children child :
  find_child_router url children = Some child →
  ∃ pre mask post, children = pre ++ (mask, child) :: post
    ∧ Forall (λ mc, mask_matches url mc.1 = false) pre
    ∧ mask_matches url mask = true.
Proof.
  induction children as [|[m c] children IH]; simpl; [done|].
  destruct (mask_matches url m) eqn:Hm.
  - intros [= ->]. by exists [], m, children.
  - intros (pre & mask & post & -> & Hpre & Hmask)%IH.
    exists ((m, c) :: pre), mask, post. split; [done|]. split; [|done].
    by constructor.
Qed.

Lemma find_child_router_None url children :
  find_child_router url children = None →
  Forall (λ mc, mask_matches url mc.1 = false) children.
Proof.
  induction children as [|[m c] children IH]; simpl; [by constructor|].
  destruct (mask_matches url m) eqn:Hm; [done|]. intros Hn. constructor; [done|by apply IH].
Qed.

Lemma child_routers_of_constructed self w R :
  routers w !! self = Some R →
  child_routers_of self w = (Ret (child_routers R), w).
Proof. intros HR. unfold child_routers_of. by rewrite (method_constructed _ _ _ _ _ HR). Qed.

Lemma navigate_to_child n self url server_side sync history w R child :
  routers w !! self = Some R →
  find_child_router url (child_routers R) = Some child →
  navigate_to (S n) self (TStr url) server_side sync history w
  = navigate_to n child (TStr url) server_side false true w.
Proof.
  intros HR Hc. simpl. rewrite (bind_ret _ _ _ _ _ (child_routers_of_constructed _ _ _ HR)).
  unfold delegated_call. by rewrite Hc.
Qed.

Lemma navigate_to_own n self url server_side sync history w R :
  routers w !! self = Some R →
  find_child_router url (child_routers R) = None →
  navigate_to (S n) self (TStr url) server_side sync history w
  = bind (handle_navigate self url)
      (λ target, match target with
                 | None => ret tt
                 | Some url => navigate_resolved n self (TStr url) sync history
                 end) w.
Proof.
  intros HR Hc. simpl. rewrite (bind_ret _ _ _ _ _ (child_routers_of_constructed _ _ _ HR)).
  unfold delegated_call. by rewrite Hc.
Qed.

(** C2: a URL that matches the mask of a registered child router (as it is,
    or extended with [/*]) is handed to a child router whose mask matches,
    the first one in the order of the dictionary. The call made on it
    carries the URL and the [server_side] flag as they came and nothing
    more: [sync] and [history] are not passed on, the child runs with their
    defaults (no [sync], [history] respected). The call of the parent is
    that call and nothing else: when the child handles the URL itself, the
    navigation hooks asked are the child's and what follows them is the
    child's lines 168-200, so the parent resolves nothing, writes no title
    and pushes no history entry; and the call comes back. *)
Theorem navigate_to_delegates_to_child
    n self url server_side sync history w R mask child :
  routers w !! self = Some R →
  (mask, child) ∈ child_routers R →
  mask_matches url mask = true →
  ∃ pre mask' child' post,
    child_routers R = pre ++ (mask', child') :: post
    ∧ Forall (λ mc, mask_matches url mc.1 = false) pre
    ∧ mask_matches url mask' = true
    ∧ delegated_call (child_routers R) url server_side
      = Some {| callee := child'; call_target := url; call_server_side := server_side;
                call_sync := false; call_history := true |}
    ∧ navigate_to (S (S (S (S n)))) self (TStr url) server_side sync history w
      = navigate_to (S (S (S n))) child' (TStr url) server_side false true w
    ∧ ∀ C, routers w !! child' = Some C →
           find_child_router url (child_routers C) = None →
           navigate_to (S (S (S (S n)))) self (TStr url) server_side sync history w
           = bind (handle_navigate child' url)
               (λ target, match target with
                          | None => ret tt
                          | Some url =>
                              navigate_resolved (S (S n)) child' (TStr url) false true
                          end) w
           ∧ (navigate_to (S (S (S (S n)))) self (TStr url) server_side sync history w).1
             ≠ OutOfFuel.
Proof.
  intros HR Hin Hm.
  destruct (find_child_router url (child_routers R)) as [child'|] eqn:Hc.
  - destruct (find_child_router_Some _ _ _ Hc) as (pre & mask' & post & E & Hpre & Hm').
    exists pre, mask', child', post.
    assert (navigate_to (S (S (S (S n)))) self (TStr url) server_side sync history w
            = navigate_to (S (S (S n))) child' (TStr url) server_side false true w) as Hcall
      by (by eapply navigate_to_child).
    split; [done|]. split; [done|]. split; [done|].
    split; [unfold delegated_call; by rewrite Hc|]. split; [done|].
    intros C HC Hnone. rewrite Hcall.
    rewrite (navigate_to_own _ _ _ _ _ _ _ _ HC Hnone). split; [done|].
    unfold bind at 1.
    destruct (user_only_handle_navigate child' url w) as (o & u & Ho & ->).
    destruct o as [[url'|]|e|]; [|done..].
    apply navigate_resolved_comes_back.
  - apply find_child_router_None in Hc.
    rewrite Forall_forall in Hc. specialize (Hc _ Hin). simpl in Hc. congruence.
Qed.

(** *** Navigation hooks *)

Lemma handle_navigate_constructed self url w R :
  routers w !! self = Some R →
  handle_navigate self url w
  = handle_navigate_with (_on_navigate R) (router_config R) url w.
Proof. intros HR. unfold handle_navigate. by rewrite (method_constructed _ _ _ _ _ HR). Qed.

Lemma handle_navigate_vetoed self url w R :
  routers w !! self = Some R →
  vetoed R url (user w) = true →
  ∃ u, handle_navigate self url w = (Ret None, set_user u w).
Proof.
  intros HR Hv. rewrite (handle_navigate_constructed _ _ _ _ HR).
  unfold handle_navigate_with.
  unfold vetoed in Hv. unfold bind, lift_user, ret.
  destruct (_on_navigate R) as [h|].
  - destruct (call_on_navigate h url (user w)) as [[[url'|]|e] u1]; [| |done].
    + simpl. destruct (config_handle_navigate (router_config R) url' u1)
        as [[[url''|]|e] u2]; [done| |done].
      exists u2. by rewrite bool_decide_eq_true_2 by (by left).
    + by exists u1.
  - destruct (config_handle_navigate (router_config R) url (user w))
      as [[[url''|]|e] u2]; [done| |done].
    by exists u2.
Qed.

(** C3: when the router's [on_navigate] hook or the config's
    [handle_navigate] answers null for a URL the router handles itself, the
    navigation does nothing: it returns, and apart from what the hooks did to
    the user's own state the world is as before — every router and frame
    (mounted content, recorded target URL, also of the ancestors), the
    scripts sent to the browser (no history entry) and the scheduled builds. *)
Theorem navigate_to_vetoed_is_noop n self url server_side sync history w R :
  routers w !! self = Some R →
  find_child_router url (child_routers R) = None →
  vetoed R url (user w) = true →
  ∃ u, navigate_to (S n) self (TStr url) server_side sync history w
         = (Ret tt, set_user u w)
     ∧ routers (set_user u w) = routers w
     ∧ log (set_user u w) = log w
     ∧ tasks (set_user u w) = tasks w.
Proof.
  intros HR Hc Hv. destruct (handle_navigate_vetoed _ _ _ _ HR Hv) as [u E].
  exists u. split; [|done].
  rewrite (navigate_to_own _ _ _ _ _ _ _ _ HR Hc).
  by rewrite (bind_ret _ _ _ _ _ E).
Qed.

End Navigation.

(** *** The content of a frame *)

Section Content.

Context {U : Type} `{!Env U}.
Implicit Types (w : World U) (kw : kwargs).

Lemma filter_kwargs_lookup args kw k v :
  filter_kwargs args kw !! k = Some v ↔ kw !! k = Some v ∧ k ∈ args.
Proof. unfold filter_kwargs. by rewrite map_lookup_filter_Some. Qed.

(** Entries under keys that the builder does not declare change nothing. *)
Lemma filter_kwargs_extra args kw extra :
  (∀ k, is_Some (extra !! k) → k ∉ args) →
  filter_kwargs args (py_or kw extra) = filter_kwargs args kw.
Proof.
  intros Hextra. apply map_eq. intros k. apply option_eq. intros v.
  rewrite !filter_kwargs_lookup. unfold py_or. rewrite lookup_union_Some_raw.
  split.
  - intros [[Hk|[_ Hk]] Hin]; [|done]. exfalso. by apply (Hextra k).
  - intros [Hk Hin]. split; [|done]. right. split; [|done].
    destruct (extra !! k) eqn:E; [|done]. exfalso. by apply (Hextra k).
Qed.

Lemma exec_builder_extra b kw extra :
  (∀ k, is_Some (extra !! k) → k ∉ parameter_names (signature_of b)) →
  exec_builder b (py_or kw extra) = exec_builder b kw.
Proof. intros Hextra. unfold exec_builder. by rewrite filter_kwargs_extra. Qed.

Lemma frame_clear_tasks self w o w' :
  @frame_clear U self w = (o, w') → tasks w' = tasks w.
Proof.
  unfold frame_clear, modify_router. destruct (routers w !! self); by intros [= _ <-].
Qed.

(** A build scheduled on an empty queue is the next one the loop runs. *)
Lemma create_then_run self b kw target_fragment w :
  tasks w = [] →
  bind (background_tasks_create
          {| task_frame := self; task_builder := b; task_kwargs := kw;
             task_fragment := target_fragment |}) (λ _, run_background_task) w
  = (let '(_, w') := build self b kw target_fragment w in (Ret tt, w')).
Proof.
  intros Ht. unfold bind, background_tasks_create, run_background_task. simpl.
  rewrite Ht. simpl. destruct w; simpl in *. by subst.
Qed.

Lemma update_content_start self R ttl w (k : M U unit) :
  routers w !! self = Some R →
  bind (get_router self)
    (λ R, when (frame_change_title (router_frame R))
            (ui_page_title (ByFrame self) (default app_title ttl)) ;;
          frame_clear self ;; k) w
  = k (ready_to_build self R ttl w).
Proof.
  intros HR. rewrite (bind_ret _ _ _ _ _ (get_router_ok _ _ _ HR)).
  unfold ready_to_build, when, frame_clear.
  destruct (frame_change_title (router_frame R)).
  - unfold bind at 1. unfold ui_page_title.
    by rewrite (bind_ret _ _ _ tt _ (modify_router_ok self emptied (set_log _ w) R HR)).
  - rewrite bind_ret_l. by rewrite (bind_ret _ _ _ _ _ (modify_router_ok _ _ _ _ HR)).
Qed.

(** C5: [update_content] calls the builder with exactly the entries of the
    keyword arguments whose keys are parameter names of the builder: once
    the title is written and the frame emptied, the build, done at once or
    by the event loop, is the call of the builder with those entries inside
    the frame's slot, and for a view function whose call binds that call is
    the body of the view run on them. The other entries are dropped: with or
    without them [update_content] does the same, so an unknown key cannot
    make the call raise. *)
Theorem update_content_filters_kwargs self b builder_kwargs ttl target_fragment :
  let args := parameter_names (signature_of b) in
  let passed := filter_kwargs args builder_kwargs in
  (∀ k v, passed !! k = Some v ↔ builder_kwargs !! k = Some v ∧ k ∈ args)
  ∧ (∀ w R, routers w !! self = Some R →
       update_content self b builder_kwargs ttl target_fragment true w
       = with_slot self (py_call b passed ;; goto_fragment target_fragment)
           (ready_to_build self R ttl w)
       ∧ (tasks w = [] →
          bind (update_content self b builder_kwargs ttl target_fragment false)
               (λ _, run_background_task) w
          = (Ret tt,
             (with_slot self
                (let* result := py_call b passed in
                 match result with
                 | Some c => await c
                 | None => ret tt
                 end ;;
                 goto_fragment target_fragment)
                (ready_to_build self R ttl w)).2)))
  ∧ (∀ id w, b = UserBuilder id → is_coroutine_function id = false →
       binds (signature id) passed = true →
       py_call b passed w = bind (lift_world (builder_body id passed)) (λ _, ret None) w)
  ∧ ∀ extra, (∀ k, is_Some (extra !! k) → k ∉ args) →
      filter_kwargs args (py_or builder_kwargs extra) = passed
      ∧ (∀ w, update_content self b (py_or builder_kwargs extra) ttl target_fragment true w
              = update_content self b builder_kwargs ttl target_fragment true w)
      ∧ (∀ w, tasks w = [] →
              bind (update_content self b (py_or builder_kwargs extra) ttl target_fragment false)
                   (λ _, run_background_task) w
              = bind (update_content self b builder_kwargs ttl target_fragment false)
                   (λ _, run_background_task) w).
Proof.
  intros args passed. split; [apply filter_kwargs_lookup|]. split; [|split].
  - intros w R HR. split.
    + exact (update_content_start self R ttl w
               (build_sync self b builder_kwargs target_fragment) HR).
    + intros Ht.
      pose proof (update_content_start self R ttl w
                    (background_tasks_create
                       {| task_frame := self; task_builder := b;
                          task_kwargs := builder_kwargs;
                          task_fragment := target_fragment |}) HR) as E.
      change (bind (get_router self) _ w)
        with (update_content self b builder_kwargs ttl target_fragment false w) in E.
      transitivity
        (bind (background_tasks_create
                 {| task_frame := self; task_builder := b;
                    task_kwargs := builder_kwargs;
                    task_fragment := target_fragment |})
              (λ _, run_background_task) (ready_to_build self R ttl w)).
      { unfold bind at 1. rewrite E. done. }
      rewrite create_then_run.
      * unfold build, exec_builder.
        by destruct (with_slot _ _ _).
      * unfold ready_to_build. simpl. by destruct (frame_change_title _).
  - intros id w -> Hco Hb. unfold py_call. simpl. by rewrite Hb, Hco.
  - intros extra Hextra. split; [by apply filter_kwargs_extra|]. split.
    + intros w. unfold update_content, build_sync. by rewrite exec_builder_extra.
    + intros w Hw. unfold update_content. rewrite !bind_assoc.
      apply bind_ext_ret. intros R w1 [_ ->]%get_router_inv.
      rewrite !bind_assoc. apply bind_ext_ret. intros [] w2 Hw2.
      rewrite !bind_assoc. apply bind_ext_ret. intros [] w3 Hw3.
      assert (tasks w3 = []) as Ht.
      { rewrite (frame_clear_tasks _ _ _ _ Hw3).
        destruct (frame_change_title (router_frame R)); by injection Hw2 as <-. }
      rewrite !create_then_run by done. unfold build. by rewrite exec_builder_extra.
Qed.

End Content.

(** *** Unknown paths *)

Section NotFound.

Context {U : Type} `{!Env U}.
Implicit Types (w : World U) (u : U).




End NotFound.

(** * The example application *)

Section Examples.

Import Demo.

Local Abbreviation root_router :=
  (new_router services_config None [] "/" None None None).
Local Abbreviation guard :=
  (new_router main_config None [] "/" (Some confirm_leave) None None).
Local Abbreviation main_router :=
  (new_router main_config None [("/services", 1)] "/" (Some confirm_leave) None None).
Local Abbreviation suppressor :=
  (new_router main_config None [] "/" None (Some suppress_all) None).
Local Abbreviation services_router :=
  (new_router services_config (Some 0) [("/services/compute", 2)] "/" None None None).
Local Abbreviation leaf_router :=
  (new_router services_config (Some 1) [] "/" None None None).

(** The redirect of C1 on the example: the hook of the route entry of /old
    answers the target of /new; the hooks of the configs do not run (the
    trace holds the redirecting hook only) and the hook's target comes
    back. *)
Lemma resolve_target_restarts_on_redirect_witness :
  resolve_target 2 0 (TStr "/old") (Some ∅) redirecting_world
    = (Ret (routes "/new"), set_user ["on_open:redirect_old"] redirecting_world)
  ∧ original_path (routes "/new") = Some "/new".
Proof.
  split; [|reflexivity].
  refine (proj2 (resolve_target_restarts_on_redirect 0 0 "/old" (Some ∅)
            redirecting_world root_router redirecting_world (routes "/old")
            redirecting_world [router_on_open root_router (Some ∅)]
            (route_entry_on_open (Some ∅))
            (config_on_open <$> config_chain services_config)
            (claim_target 0 (routes "/old")) redirecting_world
            (routes "/new") (set_user ["on_open:redirect_old"] redirecting_world)
            _ _ _ _ _ _ _ _) _).
  - vm_compute; reflexivity.
  - vm_compute; reflexivity.
  - vm_compute; reflexivity.
  - eexists. vm_compute; reflexivity.
  - reflexivity.
  - vm_compute; reflexivity.
  - vm_compute; reflexivity.
  - discriminate.
  - reflexivity.
Defined.

(** C1 as stated fails. The hook of the route entry of /moved hands back
    its target under the path /new. [resolve_target] restarts on it and
    returns it at once (line 106): its [original_path] is /new, but it is
    not the target that /new resolves to, before or after the hook ran; it
    still has the builder and the title of /moved. *)
Lemma redirect_returns_the_hook_target :
  ∃ t t_new,
    resolve_target 2 0 (TStr "/moved") (Some ∅) redirecting_world
      = (Ret t, set_user ["on_open:rename_moved"] redirecting_world)
    ∧ original_path t = Some "/new"
    ∧ (resolve_target 2 0 (TStr "/new") (Some ∅) redirecting_world).1 = Ret t_new
    ∧ (resolve_target 2 0 (TStr "/new") (Some ∅)
         (set_user ["on_open:rename_moved"] redirecting_world)).1 = Ret t_new
    ∧ t ≠ t_new
    ∧ target_builder t = Some (UserBuilder 1) ∧ title t = Some "Old page"
    ∧ target_builder t_new = Some (UserBuilder 2) ∧ title t_new = Some "New page".
Proof.
  exists (with_path "/new" (claim_target 0 (routes "/moved"))),
         (claim_target 0 (routes "/new")).
  split; [vm_compute; reflexivity|]. split; [reflexivity|].
  split; [vm_compute; reflexivity|]. split; [vm_compute; reflexivity|].
  split; [|repeat split; vm_compute; reflexivity].
  intros E. apply (f_equal target_builder) in E. vm_compute in E. discriminate.
Qed.

(** The delegation of C2 on the example: /services/compute/vm goes from the
    services router to the leaf router registered under /services/compute,
    whatever [sync] and [history] the caller gave; the hooks asked are the
    leaf's, and the navigation ends in the leaf (at line 176). *)
Lemma navigate_to_delegates_to_child_witness :
  ∃ pre mask' child' post,
    [("/services/compute", 2)] = pre ++ (mask', child') :: post
    ∧ Forall (λ mc, mask_matches "/services/compute/vm" mc.1 = false) pre
    ∧ mask_matches "/services/compute/vm" mask' = true
    ∧ delegated_call [("/services/compute", 2)] "/services/compute/vm" true
      = Some {| callee := child'; call_target := "/services/compute/vm";
                call_server_side := true; call_sync := false; call_history := true |}
    ∧ navigate_to 4 1 (TStr "/services/compute/vm") true true false nested_world
      = navigate_to 3 child' (TStr "/services/compute/vm") true false true nested_world
    ∧ navigate_to 4 1 (TStr "/services/compute/vm") true true false nested_world
      = bind (handle_navigate child' "/services/compute/vm")
          (λ target, match target with
                     | None => ret tt
                     | Some url => navigate_resolved 2 child' (TStr url) false true
                     end) nested_world
    ∧ navigate_to 4 1 (TStr "/services/compute/vm") true true false nested_world
      = (Raise AttributeError,
         set_user ["on_open:update_title"; "on_open:config"] nested_world).
Proof.
  destruct (navigate_to_delegates_to_child 0 1 "/services/compute/vm" true true false
              nested_world services_router "/services/compute" 2)
    as (pre & mask' & child' & post & Hsplit & Hpre & Hmask & Hcall & Hnav & Hown).
  - vm_compute; reflexivity.
  - apply list_elem_of_here.
  - vm_compute; reflexivity.
  - exists pre, mask', child', post.
    do 5 (split; [assumption|]). split; [|vm_compute; reflexivity].
    assert (child' = 2) as -> by (vm_compute in Hcall; congruence).
    apply (Hown leaf_router); vm_compute; reflexivity.
Defined.

(** C2 as stated fails: the call is not handed on as it came. The main
    router is asked to navigate synchronously and without a history entry;
    the call it makes on its child router carries neither flag, so the
    child navigates with the defaults, not synchronously and with the
    history setting respected. *)
Lemma delegation_drops_sync_and_history :
  find_child_router "/services/compute/vm" (child_routers main_router) = Some 1
  ∧ delegated_call (child_routers main_router) "/services/compute/vm" true
    ≠ Some {| callee := 1; call_target := "/services/compute/vm";
              call_server_side := true; call_sync := true; call_history := false |}
  ∧ delegated_call (child_routers main_router) "/services/compute/vm" true
    = Some {| callee := 1; call_target := "/services/compute/vm";
              call_server_side := true; call_sync := false; call_history := true |}
  ∧ navigate_to 4 0 (TStr "/services/compute/vm") true true false nested_world
    = navigate_to 3 1 (TStr "/services/compute/vm") true false true nested_world.
Proof.
  split; [vm_compute; reflexivity|]. split; [|split; vm_compute; reflexivity].
  intros E. vm_compute in E. discriminate.
Qed.

(** The veto of C3 on the example: the hook answers null for /admin. *)
Lemma navigate_to_vetoed_is_noop_witness :
  ∃ u, navigate_to 3 0 (TStr "/admin") true true true guarded_world
         = (Ret tt, set_user u guarded_world)
     ∧ routers (set_user u guarded_world) = routers guarded_world
     ∧ log (set_user u guarded_world) = log guarded_world
     ∧ tasks (set_user u guarded_world) = tasks guarded_world.
Proof.
  refine (navigate_to_vetoed_is_noop 2 0 "/admin" true true true guarded_world
            guard _ _ _);
    vm_compute; reflexivity.
Defined.



(** C5 on the example: the view declares [url_path] only; of the three
    entries it is called with that one (the trace holds the keys the view
    received). *)
Lemma update_content_filters_kwargs_witness :
  update_content 0 (UserBuilder 0)
    (<[ "url_path" := VStr "/" ]>
       (<[ "menu_drawer" := VObj 7 ]> {[ "target_url" := VStr "/" ]}))
    (Some "Home") None true guarded_world
  = with_slot 0 (py_call (UserBuilder 0) {[ "url_path" := VStr "/" ]} ;; ret tt)
      (ready_to_build 0 guard (Some "Home") guarded_world)
  ∧ user (update_content 0 (UserBuilder 0)
            (<[ "url_path" := VStr "/" ]>
               (<[ "menu_drawer" := VObj 7 ]> {[ "target_url" := VStr "/" ]}))
            (Some "Home") None true guarded_world).2
    = ["view 0(url_path)"].
Proof.
  destruct (update_content_filters_kwargs 0 (UserBuilder 0)
              (<[ "url_path" := VStr "/" ]>
                 (<[ "menu_drawer" := VObj 7 ]> {[ "target_url" := VStr "/" ]}))
              (Some "Home") None) as (_ & Hbuild & _).
  destruct (Hbuild guarded_world guard) as [Hsync _]; [vm_compute; reflexivity|].
  split; [|vm_compute; reflexivity].
  rewrite Hsync. vm_compute; reflexivity.
Defined.



(** C9 on the example: the outlet of the services is created while the main
    router shows /services/compute/vm. The base path is resolved to
    /services/compute and the included path with it, the new object is
    registered with the main router, and then the constructor raises: no
    router comes back, and the object it leaves has no frame and no hook
    attributes, so that the main router fails on the URLs it hands to it.
    Without a parent the constructor raises just the same. *)
Lemma init_raises_after_registering :
  ∃ w' H,
    __init__ services_config (Some ["/services/*"]) None true true (Some 0) None (Some ∅)
      Portal.service_page_world = (Raise TypeError, w')
    ∧ routers w' !! 1 = None
    ∧ unfinished w' !! 1 = Some H
    ∧ u_base_path H = "/services/compute"
    ∧ u_on_navigate H = None ∧ u_on_resolve H = None ∧ u_on_open H = None
    ∧ child_routers <$> routers w' !! 0 = Some [("/services/compute", 1)]
    ∧ navigate_to 3 0 (TStr "/services/compute/vm") true true true w'
      = (Raise AttributeError, w')
    ∧ (__init__ services_config None None true true None (Some "/services/compute/vm")
         None Portal.service_page_world).1 = Raise TypeError.
Proof.
  eexists _, _. split; [vm_compute; reflexivity|].
  repeat split; vm_compute; reflexivity.
Qed.

(** C10 on the example: the main router of the nested world has a child
    router for /services and a vetoing [on_navigate] hook; a target for
    /services/compute/vm given as an object is resolved by the main router
    itself, and comes back from [resolve_target] as it is. *)
Lemma navigate_to_target_skips_hooks_witness :
  navigate_to 3 0 (TTarget (routes "/services/compute/vm")) true true true nested_world
    = navigate_resolved 2 0 (TTarget (routes "/services/compute/vm")) true true nested_world
  ∧ resolve_target 1 0 (TTarget (routes "/services/compute/vm")) (Some ∅) nested_world
    = (Ret (routes "/services/compute/vm"), nested_world).
Proof.
  destruct (navigate_to_target_skips_hooks 2 0 (routes "/services/compute/vm")
              true true true nested_world) as [Hnav Hres].
  split; [exact Hnav|].
  refine (Hres main_router 0 (Some ∅) _ _); vm_compute; reflexivity.
Defined.

End Examples.

(** * Further properties

    What the code shows beyond the properties above: about the methods
    embedded there, and about the rest of the router. *)

(** ** Strings: trailing slashes and round trips *)

Lemma rstrip_trailing c s :
  Str.rstrip c (s +:+ String c EmptyString) = Str.rstrip c s.
Proof.
  induction s as [|a s IH]; simpl.
  - by rewrite Ascii.eqb_refl.
  - by rewrite IH.
Qed.

Lemma rstrip_not_endswith c s : Str.endswith c (Str.rstrip c s) = false.
Proof.
  induction s as [|a s IH]; simpl; [done|].
  destruct (Str.rstrip c s) as [|b r] eqn:E.
  - destruct (Ascii.eqb a c) eqn:Ea; simpl; [done|by rewrite Ea].
  - simpl in *. destruct r; done.
Qed.

Lemma join_split s : Str.join "/" (Str.split slash s) = s.
Proof.
  induction s as [|a s IH]; simpl; [done|].
  destruct (Ascii.eqb a slash) eqn:Ea.
  - apply Ascii.eqb_eq in Ea as ->.
    pose proof (split_not_nil slash s) as Hne.
    destruct (Str.split slash s) as [|h t] eqn:E; [done|].
    change (Str.join "/" ("" :: h :: t)) with ("/" +:+ Str.join "/" (h :: t)).
    by rewrite IH.
  - pose proof (split_not_nil slash s) as Hne.
    destruct (Str.split slash s) as [|h t] eqn:E; [done|].
    destruct t as [|h' t].
    + simpl in *. by rewrite IH.
    + change (Str.join "/" (String a h :: h' :: t))
        with (String a (Str.join "/" (h :: h' :: t))).
      by rewrite IH.
Qed.

Lemma enumerate_update_unchanged {A} (f : nat → A → option A) (l : list A) :
  (∀ i e, l !! i = Some e → updated f i e = e) → enumerate_update f l = l.
Proof.
  intros Hf. apply list_eq. intros i. rewrite enumerate_update_lookup.
  destruct (l !! i) as [e|] eqn:E; [|done]. simpl. by rewrite (Hf i e).
Qed.

(** X1: the two masks of a path do not depend on trailing slashes of the
    path: [p] and [p/] give the same masks, no mask of the first kind ends
    with a slash, and every path contributes exactly two masks, itself and
    itself followed by [/*]. *)
Theorem path_masks_ignore_trailing_slash (paths : list string) :
  path_masks (Some ((λ p, p +:+ "/") <$> paths)) = path_masks (Some paths)
  ∧ length (path_masks (Some paths)) = 2 * length paths
  ∧ ∀ i p, paths !! i = Some p →
      path_masks (Some paths) !! (2 * i) = Some (Str.rstrip slash p)
      ∧ path_masks (Some paths) !! (2 * i + 1) = Some (Str.rstrip slash p +:+ "/*")
      ∧ Str.endswith slash (Str.rstrip slash p) = false.
Proof.
  split; [|split].
  - unfold path_masks. induction paths as [|p paths IH]; [done|].
    rewrite fmap_cons. cbn [flat_map]. rewrite IH.
    change (p +:+ "/") with (p +:+ String slash EmptyString).
    by rewrite rstrip_trailing.
  - induction paths as [|p paths IH]; [done|]. simpl in *. lia.
  - induction paths as [|q paths IH]; intros i p Hi; [done|].
    destruct i as [|i].
    + injection Hi as ->. simpl. split; [done|]. split; [done|].
      apply rstrip_not_endswith.
    + simpl in Hi. destruct (IH i p Hi) as (H1 & H2 & H3).
      replace (2 * S i) with (S (S (2 * i))) by lia.
      replace (S (S (2 * i)) + 1) with (S (S (2 * i + 1))) by lia.
      simpl. simpl in H1, H2. by rewrite H1, H2.
Qed.

(** ** Resolution *)

Section Resolution.

Context {U : Type} `{!Env U}.
Implicit Types (w : World U) (u : U).

Lemma resolve_target_start n self url ud w R w0 t0 w1 :
  routers w !! self = Some R →
  try_on_resolve R (TStr url) w = (Ret None, w0) →
  lift_user (config_resolve_target (router_config R) url) w0 = (Ret (Some t0), w1) →
  resolve_target (S n) self (TStr url) ud w =
  match router_path (claim_target self t0) with
  | None => (Ret (claim_target self t0), w1)
  | Some _ =>
      bind (run_chain (original_path (claim_target self t0)) (on_open_chain R ud)
              (claim_target self t0))
           (restart_or_return (λ t, resolve_target n self (TTarget t) ud)) w1
  end.
Proof.
  intros HR Hres Hcfg.
  change (resolve_target (S n) self (TStr url) ud w)
    with (resolve_target_body (λ t, resolve_target n self (TTarget t) ud)
            self (TStr url) ud w).
  unfold resolve_target_body. rewrite (method_constructed _ _ _ _ _ HR).
  unfold resolve_target_with.
  change (try_handler (_on_resolve R) (TStr url)) with (try_on_resolve R (TStr url)).
  rewrite (bind_ret _ _ _ _ _ Hres). cbv beta iota.
  rewrite (bind_ret _ _ _ _ _ Hcfg). cbv beta iota zeta.
  destruct (router_path (claim_target self t0)); [|done].
  apply run_on_open_hooks_run_chain.
Qed.

Lemma run_chain_opened_path path (hooks : list (SinglePageTarget → M U SinglePageTarget)) :
  ∀ target w t w',
  original_path target = path →
  run_chain path hooks target w = (Ret (Opened t), w') → original_path t = path.
Proof.
  induction hooks as [|h hooks IH]; intros target w t w' Hpath; simpl.
  - by intros [= <- _].
  - unfold bind. destruct (h target w) as [[t1|e|] w1]; [|done..].
    destruct (bool_decide (original_path t1 ≠ path)) eqn:Hd; [done|].
    apply IH. apply bool_decide_eq_false in Hd.
    by destruct (decide (original_path t1 = path)).
Qed.

(** X2: a custom [on_resolve] handler has the first refusal. When it answers
    a target, [resolve_target] returns that target as it is, for a URL and
    for a target object alike: the config's resolver and the [on_open] hooks
    are not consulted, and the target is not given the router. *)
Theorem resolve_target_on_resolve_first n self target ud w R h t u :
  routers w !! self = Some R →
  _on_resolve R = Some h →
  call_on_resolve h target (user w) = (Ok (Some t), u) →
  resolve_target (S n) self target ud w = (Ret t, set_user u w).
Proof.
  intros HR Hh Hcall. simpl. unfold resolve_target_body.
  rewrite (method_constructed _ _ _ _ _ HR).
  unfold resolve_target_with, try_handler. rewrite Hh.
  unfold bind, lift_user. by rewrite Hcall.
Qed.

(** X3: a URL that matches no route entry runs no [on_open] hook, whatever
    hooks the router and its configs have: [resolve_target] returns what the
    config resolved, with the router filled in when the target is valid and
    names no router yet, and otherwise untouched. *)
Theorem resolve_target_unmatched_runs_no_hook n self url ud w R w0 t0 w1 :
  routers w !! self = Some R →
  try_on_resolve R (TStr url) w = (Ret None, w0) →
  lift_user (config_resolve_target (router_config R) url) w0 = (Ret (Some t0), w1) →
  router_path t0 = None →
  resolve_target (S n) self (TStr url) ud w = (Ret (claim_target self t0), w1)
  ∧ router (claim_target self t0)
    = (if valid t0 && bool_decide (router t0 = None) then Some self else router t0)
  ∧ original_path (claim_target self t0) = original_path t0
  ∧ target_builder (claim_target self t0) = target_builder t0.
Proof.
  intros HR Hres Hcfg Hrp.
  rewrite (resolve_target_start _ _ _ _ _ _ _ _ _ HR Hres Hcfg).
  assert (router_path (claim_target self t0) = None) as ->.
  { unfold claim_target. by destruct (valid t0 && bool_decide (router t0 = None)). }
  split; [done|]. unfold claim_target.
  by destruct (valid t0 && bool_decide (router t0 = None)).
Qed.

(** X4: when every [on_open] hook keeps the [original_path], all of them
    run, in the order router, route entry, configs from the innermost
    outwards, each on the target the one before returned; [resolve_target]
    returns what the last one returned, without a recursive call, and that
    target still has the path that was resolved. *)
Theorem resolve_target_runs_every_hook n self url ud w R w0 t0 w1 t w2 :
  routers w !! self = Some R →
  try_on_resolve R (TStr url) w = (Ret None, w0) →
  lift_user (config_resolve_target (router_config R) url) w0 = (Ret (Some t0), w1) →
  is_Some (router_path (claim_target self t0)) →
  run_chain (original_path (claim_target self t0)) (on_open_chain R ud)
    (claim_target self t0) w1 = (Ret (Opened t), w2) →
  resolve_target (S n) self (TStr url) ud w = (Ret t, w2)
  ∧ original_path t = original_path (claim_target self t0).
Proof.
  intros HR Hres Hcfg [rp Hrp] Hchain.
  rewrite (resolve_target_start _ _ _ _ _ _ _ _ _ HR Hres Hcfg), Hrp.
  rewrite (bind_ret _ _ _ _ _ Hchain). split; [done|].
  by eapply run_chain_opened_path.
Qed.

(** X5: an [on_open] hook of the router itself never runs. For a URL that
    matches a route entry, line 116 looks up [RouterFrame.run_safe] before
    it calls the hook, and the frame has no such attribute: [resolve_target]
    raises [AttributeError], whatever the user data, with the user's state
    as the config's resolver left it; no hook of the route entry or of the
    configs runs either. *)
Theorem resolve_target_router_hook_never_runs n self url ud w R w0 t0 w1 :
  routers w !! self = Some R →
  try_on_resolve R (TStr url) w = (Ret None, w0) →
  lift_user (config_resolve_target (router_config R) url) w0 = (Ret (Some t0), w1) →
  is_Some (router_path (claim_target self t0)) →
  is_Some (_on_open R) →
  resolve_target (S n) self (TStr url) ud w = (Raise AttributeError, w1).
Proof.
  intros HR Hres Hcfg [rp Hrp] [h Hh].
  rewrite (resolve_target_start _ _ _ _ _ _ _ _ _ HR Hres Hcfg), Hrp.
  unfold on_open_chain. rewrite run_chain_cons. unfold router_on_open.
  by rewrite Hh.
Qed.

(** X6: [resolve_target] called without [user_data] (the default, null)
    cannot run the [on_open] hook of the matched route entry: when the entry
    has one (and the router none of its own), a matched URL raises
    [TypeError] when the keyword arguments are unpacked at line 121, before
    the hook is called. *)
Theorem resolve_target_without_user_data n self url w R w0 t0 w1 rp :
  routers w !! self = Some R →
  try_on_resolve R (TStr url) w = (Ret None, w0) →
  lift_user (config_resolve_target (router_config R) url) w0 = (Ret (Some t0), w1) →
  router_path (claim_target self t0) = Some rp →
  _on_open R = None →
  is_Some (rp_on_open rp) →
  resolve_target (S n) self (TStr url) None w = (Raise TypeError, w1).
Proof.
  intros HR Hres Hcfg Hrp Hnone [h Hh].
  rewrite (resolve_target_start _ _ _ _ _ _ _ _ _ HR Hres Hcfg), Hrp.
  unfold on_open_chain. rewrite run_chain_cons. unfold router_on_open.
  rewrite Hnone, bind_ret_l. rewrite bool_decide_eq_false_2 by (by intros ?).
  rewrite run_chain_cons. unfold route_entry_on_open. by rewrite Hrp, Hh.
Qed.

End Resolution.

Section DeadRaise.

Context {U : Type} `{!Env U}.
Implicit Types (w : World U) (u : U).

Lemma nif_ret {A} (a : A) : not_implemented_free (@ret U A a).
Proof. by intros w. Qed.

Lemma nif_raise {A} e : e ≠ NotImplementedError → not_implemented_free (@raise U A e).
Proof. intros He w [= ?]. done. Qed.

Lemma nif_out_of_fuel {A} : not_implemented_free (@out_of_fuel U A).
Proof. by intros w. Qed.

Lemma nif_lift_user {A} (f : U → result A * U) :
  never_not_implemented f → not_implemented_free (lift_user f).
Proof.
  intros Hf w. unfold lift_user. specialize (Hf (user w)).
  destruct (f (user w)) as [[a|e] u]; simpl in *; [done|]. intros [= ->]. done.
Qed.

Lemma nif_get_router self : not_implemented_free (@get_router U self).
Proof. intros w. unfold get_router. by destruct (routers w !! self). Qed.

Lemma nif_method {A} self (c : SinglePageRouter → M U A) (h : Unfinished → M U A) :
  (∀ R, not_implemented_free (c R)) → (∀ H, not_implemented_free (h H)) →
  not_implemented_free (method self c h).
Proof.
  intros Hc Hh w. unfold method.
  destruct (routers w !! self); [apply Hc|]. destruct (unfinished w !! self); [apply Hh|done].
Qed.

Lemma nif_require_dict d : not_implemented_free (@require_dict U d).
Proof. destruct d; [apply nif_ret|by apply nif_raise]. Qed.

Lemma nif_bind {A B} (m : M U A) (k : A → M U B) :
  not_implemented_free m → (∀ a, not_implemented_free (k a)) →
  not_implemented_free (bind m k).
Proof.
  intros Hm Hk w. unfold bind. specialize (Hm w).
  destruct (m w) as [[a|e|] w1]; simpl in *; [apply Hk| |done].
  intros [= ->]. by apply Hm.
Qed.

(** The steps of a computation, one after the other. *)
Ltac nif :=
  repeat first
    [ apply nif_ret
    | apply nif_get_router
    | apply nif_require_dict
    | apply nif_out_of_fuel
    | solve [apply nif_raise; discriminate]
    | solve [apply nif_lift_user; auto]
    | apply nif_bind; [|intros ?]
    | apply nif_method; intros ?
    | match goal with
      | |- not_implemented_free (match ?x with _ => _ end) => destruct x
      | |- not_implemented_free (if ?b then _ else _) => destruct b
      end ].

Section Quiet.

Hypothesis on_resolve_quiet : ∀ h target, never_not_implemented (call_on_resolve h target).
Hypothesis resolver_quiet : ∀ cfg url, never_not_implemented (config_resolve_target cfg url).
Hypothesis on_open_quiet : ∀ h args kw, never_not_implemented (call_on_open h args kw).

Lemma nif_config_on_open_loop restart path config :
  (∀ t, not_implemented_free (restart t)) →
  ∀ target, not_implemented_free (config_on_open_loop restart path config target).
Proof.
  intros Hrestart. induction config as [c IH] using config_parent_ind. intros target.
  rewrite config_on_open_loop_unfold. cbv zeta.
  assert (∀ t, not_implemented_free
                 match parent_config c with
                 | Some parent => config_on_open_loop restart path parent t
                 | None => ret t
                 end) as Hnext.
  { intros t. destruct (parent_config c) eqn:Hp; [by apply IH|apply nif_ret]. }
  destruct (cfg_on_open c); [|apply Hnext].
  apply nif_bind; [by apply nif_lift_user|]. intros t.
  destruct (bool_decide _); [apply Hrestart|apply Hnext].
Qed.

Lemma nif_resolve_target_body restart self target ud :
  (∀ t, not_implemented_free (restart t)) →
  not_implemented_free (resolve_target_body restart self target ud).
Proof.
  intros Hrestart.
  unfold resolve_target_body, resolve_target_with, try_handler, run_on_open_hooks.
  pose proof nif_config_on_open_loop as Hloop.
  nif; auto.
Qed.

Lemma nif_resolve_target fuel self target ud :
  not_implemented_free (resolve_target fuel self target ud).
Proof.
  revert target. induction fuel as [|fuel IH]; intros target; simpl.
  - apply nif_out_of_fuel.
  - apply nif_resolve_target_body. intros t. apply IH.
Qed.

End Quiet.

(** X7: the [NotImplementedError] of line 112 is never raised by
    [resolve_target] itself. As long as no callback raises it, no call of
    [resolve_target] ends with it, whatever the router, the target and the
    hooks; a config resolver that answers null makes line 109 raise
    [AttributeError] instead. *)
Theorem resolve_target_never_not_implemented fuel self target ud w :
  (∀ h target, never_not_implemented (call_on_resolve h target)) →
  (∀ cfg url, never_not_implemented (config_resolve_target cfg url)) →
  (∀ h args kw, never_not_implemented (call_on_open h args kw)) →
  (resolve_target fuel self target ud w).1 ≠ Raise NotImplementedError
  ∧ ∀ R url u,
      routers w !! self = Some R → _on_resolve R = None →
      config_resolve_target (router_config R) url (user w) = (Ok None, u) →
      resolve_target (S fuel) self (TStr url) ud w = (Raise AttributeError, set_user u w).
Proof.
  intros H1 H2 H3. split; [by apply nif_resolve_target|].
  intros R url u HR Hnone Hcfg. simpl. unfold resolve_target_body.
  rewrite (method_constructed _ _ _ _ _ HR).
  unfold resolve_target_with, try_handler. rewrite Hnone, bind_ret_l.
  unfold bind, lift_user. by rewrite Hcfg.
Qed.

End DeadRaise.

Section Navigation.

Context {U : Type} `{!Env U}.
Implicit Types (w : World U) (u : U).

Lemma get_user_data_closed w :
  stack_closed w →
  (∃ d, get_user_data w = (Ret d, w)) ∨ get_user_data w = (Raise TypeError, w).
Proof.
  unfold stack_closed, get_user_data. generalize (slot_stack w) as stack.
  induction stack as [|s stack IH]; intros Hstack; simpl; [left; by exists ∅|].
  assert (∀ r, SlotFrame r ∈ stack → is_Some (routers w !! r)) as Hrest
    by (intros r Hr; apply Hstack; by right).
  specialize (IH Hrest). revert IH.
  generalize (foldr (λ (s : slot) (outer : M U kwargs),
                       let* result_dict := outer in
                       match s with
                       | SlotFrame r =>
                           let* d := user_data_of r in
                           let* d := require_dict d in
                           ret (py_or result_dict d)
                       | SlotOther => ret result_dict
                       end) (ret ∅) stack) as outer.
  intros outer IH.
  match goal with |- context [bind outer ?k] => set (step := bind outer k) end.
  destruct IH as [[d E]|E]; [|right; unfold step, bind; by rewrite E].
  destruct s as [r0|]; [|left; exists d; unfold step, bind; by rewrite E].
  destruct (Hstack r0) as [R HR]; [by left|].
  unfold step, bind, user_data_of. rewrite E.
  rewrite (method_constructed _ _ _ _ _ HR). simpl.
  destruct (user_data R) as [d0|]; [left; by exists (py_or d d0)|by right].
Qed.

(** The comparison of lines 146-148: both branches return [new_target]. *)
Lemma handle_navigate_comparison (new_target : option string) (target : string) :
  (if bool_decide (new_target = None ∨ new_target ≠ Some target)
   then new_target else Some target) = new_target.
Proof.
  destruct (bool_decide _) eqn:Hb; [done|].
  apply bool_decide_eq_false in Hb.
  destruct new_target as [n|]; [|exfalso; apply Hb; by left].
  destruct (decide (n = target)) as [->|Hne]; [done|].
  exfalso. apply Hb. right. congruence.
Qed.

(** X8: [handle_navigate] answers what the config's [handle_navigate]
    answers for the URL that the router's own hook let through (the URL
    itself when there is no hook): the comparison of lines 146-148 changes
    nothing. *)
Theorem handle_navigate_returns_config_answer self url w R url' u1 :
  routers w !! self = Some R →
  match _on_navigate R with
  | Some h => call_on_navigate h url (user w)
  | None => (Ok (Some url), user w)
  end = (Ok (Some url'), u1) →
  handle_navigate self url w
  = lift_user (config_handle_navigate (router_config R) url') (set_user u1 w).
Proof.
  intros HR Hhook. rewrite (handle_navigate_constructed _ _ _ _ HR).
  unfold handle_navigate_with.
  assert (match _on_navigate R with
          | Some h => lift_user (call_on_navigate h url)
          | None => ret (Some url)
          end w = (Ret (Some url'), set_user u1 w)) as E.
  { destruct (_on_navigate R) as [h|].
    - unfold lift_user. by rewrite Hhook.
    - injection Hhook as <- <-. by rewrite set_user_same. }
  rewrite (bind_ret _ _ _ _ _ E).
  unfold bind, lift_user, ret. simpl.
  destruct (config_handle_navigate (router_config R) url' u1) as [[new_target|e] u2];
    [|done].
  change (if bool_decide (new_target = None ∨ new_target ≠ Some url')
          then (@Ret (option string) new_target, set_user u2 (set_user u1 w))
          else (Ret (Some url'), set_user u2 (set_user u1 w)))
    with ((λ b : bool, if b then (@Ret (option string) new_target,
                                  set_user u2 (set_user u1 w))
                       else (Ret (Some url'), set_user u2 (set_user u1 w)))
            (bool_decide (new_target = None ∨ new_target ≠ Some url'))).
  pose proof (handle_navigate_comparison new_target url') as Hsame.
  destruct (bool_decide (new_target = None ∨ new_target ≠ Some url')); by subst.
Qed.


(** X10: a target that resolves to an invalid one suppresses the navigation
    (lines 171-173): [navigate_to] returns, and apart from what the hooks of
    the resolution did to the user's own state nothing happened: no target
    URL was recorded, no history entry pushed, no title written, no content
    cleared or built. *)
Theorem navigate_to_suppresses_invalid_target
    fuel self target0 target server_side sync history w_start w R inherited own t w1 :
  navigate_to (S fuel) self target0 server_side sync history w_start
    = navigate_resolved fuel self target sync history w →
  routers w !! self = Some R →
  get_user_data w = (Ret inherited, w) →
  user_data R = Some own →
  resolve_target fuel self target
    (Some (initial_handler_kwargs R inherited own target)) w = (Ret t, w1) →
  valid t = false →
  navigate_to (S fuel) self target0 server_side sync history w_start = (Ret tt, w1)
  ∧ routers w1 = routers w ∧ log w1 = log w ∧ tasks w1 = tasks w.
Proof.
  intros Hreach HR Hdata Hown Hres Hvalid. rewrite Hreach.
  rewrite (navigate_resolved_constructed _ _ _ _ _ _ _ _ _ HR Hdata Hown).
  rewrite Hres, Hvalid. split; [done|].
  by destruct (resolve_target_world _ _ _ _ _ _ _ Hres) as [u ->].
Qed.

(** X11: a target that resolves to a valid one is never shown. Line 176
    calls [_update_target_url], whose first assignment (line 273) sets the
    [target_url] of the frame, a property without a setter:
    [AttributeError]. Whatever the target (with a builder, with a fragment,
    or neither), [navigate_to] raises before a history entry is pushed, the
    content cleared or built, or a title written; only what the hooks of the
    resolution did to the user's own state remains. *)
Theorem navigate_to_valid_target_raises
    fuel self target0 target server_side sync history w_start w R inherited own t w1 :
  navigate_to (S fuel) self target0 server_side sync history w_start
    = navigate_resolved fuel self target sync history w →
  routers w !! self = Some R →
  get_user_data w = (Ret inherited, w) →
  user_data R = Some own →
  resolve_target fuel self target
    (Some (initial_handler_kwargs R inherited own target)) w = (Ret t, w1) →
  valid t = true →
  navigate_to (S fuel) self target0 server_side sync history w_start
  = (Raise AttributeError, w1)
  ∧ routers w1 = routers w ∧ log w1 = log w ∧ tasks w1 = tasks w.
Proof.
  intros Hreach HR Hdata Hown Hres Hvalid. rewrite Hreach.
  rewrite (navigate_resolved_constructed _ _ _ _ _ _ _ _ _ HR Hdata Hown).
  rewrite Hres, Hvalid. split; [done|].
  by destruct (resolve_target_world _ _ _ _ _ _ _ Hres) as [u ->].
Qed.

(** X13: whatever the router, the target and the flags, and however it
    ends, [navigate_to] changes nothing but the user's own state (what the
    hooks did): no router or frame is changed, no script or title goes to
    the browser and no build is scheduled. *)
Theorem navigate_to_changes_only_user_state
    fuel self target server_side sync history w :
  ∃ u, (navigate_to fuel self target server_side sync history w).2 = set_user u w.
Proof.
  destruct (navigate_to fuel self target server_side sync history w) as [o w'] eqn:E.
  by apply navigate_to_world in E.
Qed.

Lemma navigate_resolved_without_user_data fuel self target sync history w R :
  routers w !! self = Some R → stack_closed w → user_data R = None →
  navigate_resolved fuel self target sync history w = (Raise TypeError, w).
Proof.
  intros HR Hstack Hnone. unfold navigate_resolved.
  rewrite (method_constructed _ _ _ _ _ HR).
  destruct (get_user_data_closed w Hstack) as [[d E]|E].
  - rewrite (bind_ret _ _ _ _ _ E). by rewrite Hnone.
  - unfold bind. by rewrite E.
Qed.

(** X12: a router without user data (the default of the constructor)
    cannot navigate: once the navigation hooks let a target through, line
    168 merges [self.user_data] into a dictionary and raises [TypeError],
    before anything is resolved, recorded or rendered. *)
Theorem navigate_to_without_user_data
    fuel self target0 target server_side sync history w_start w R :
  navigate_to (S fuel) self target0 server_side sync history w_start
    = navigate_resolved fuel self target sync history w →
  routers w !! self = Some R →
  stack_closed w →
  user_data R = None →
  navigate_to (S fuel) self target0 server_side sync history w_start
  = (Raise TypeError, w).
Proof.
  intros Hreach HR Hstack Hnone. rewrite Hreach.
  by apply navigate_resolved_without_user_data with (R := R).
Qed.

End Navigation.

(** ** The frame: building content *)

Section FrameContent.

Context {U : Type} `{!Env U}.
Implicit Types (w : World U) (u : U).

Lemma when_page_title (b : bool) who ttl w :
  @when U b (ui_page_title who ttl) w
  = (Ret tt, set_log (λ l, l ++ (if b then [PageTitle who ttl] else [])) w).
Proof.
  destruct b; [done|]. unfold when, ret, set_log. destruct w. simpl.
  by rewrite app_nil_r.
Qed.

Lemma when_run_javascript_eq (b : bool) code w :
  @when U b (ui_run_javascript code) w
  = (Ret tt, set_log (λ l, l ++ (if b then [RunJavascript code] else [])) w).
Proof.
  destruct b; [done|]. unfold when, ret, set_log. destruct w. simpl.
  by rewrite app_nil_r.
Qed.

(** X14: a synchronous [update_content] never runs the body of a coroutine
    builder (lines 149-153 call [exec_builder] and drop the coroutine it
    returns, where the scheduled build of lines 140-146 awaits it): the
    title is written, the frame is cleared and stays empty, the jump to the
    fragment is sent, and nothing of what the builder would do happens. *)
Theorem update_content_sync_never_awaits self id kw ttl target_fragment w R :
  routers w !! self = Some R →
  is_coroutine_function id = true →
  binds (signature id) (filter_kwargs (parameter_names (signature id)) kw) = true →
  update_content self (UserBuilder id) kw ttl target_fragment true w
  = (Ret tt,
     set_log (λ l, l ++ (if frame_change_title (router_frame R)
                         then [PageTitle (ByFrame self) (default app_title ttl)] else [])
                     ++ match target_fragment with
                        | Some f => [RunJavascript (fragment_js f)]
                        | None => []
                        end)
       (set_routers <[self := emptied R]> w)).
Proof.
  intros HR Hco Hbinds. unfold update_content.
  rewrite (bind_ret _ _ _ _ _ (get_router_ok _ _ _ HR)).
  rewrite (bind_ret _ _ _ _ _ (when_page_title _ _ _ _)).
  set (w1 := set_log _ w).
  assert (routers w1 !! self = Some R) as HR1 by done.
  unfold frame_clear. rewrite (bind_ret _ _ _ _ _ (modify_router_ok _ _ _ _ HR1)).
  unfold build_sync, with_slot, exec_builder, py_call. simpl signature_of.
  rewrite Hbinds, Hco. unfold bind, ret, goto_fragment, ui_run_javascript.
  destruct w as [rs nr st lg ts us]. simpl.
  destruct target_fragment as [f|]; simpl; f_equal; unfold set_log, set_routers; simpl;
    f_equal; by rewrite <- ?app_assoc, ?app_nil_r.
Qed.

(** X15: when the call of the builder does not bind (a parameter without a
    default is missing from the keyword arguments), the page is left empty
    under its new title: a synchronous [update_content] raises [TypeError]
    after it wrote the title and cleared the frame; one that schedules the
    build returns, and the build then fails in the background, with the
    same frame and the same title and nothing raised to the caller. *)
Theorem update_content_unbound_builder self b kw ttl target_fragment w R :
  routers w !! self = Some R →
  binds (signature_of b) (filter_kwargs (parameter_names (signature_of b)) kw) = false →
  let w' :=
    set_log (λ l, l ++ (if frame_change_title (router_frame R)
                        then [PageTitle (ByFrame self) (default app_title ttl)] else []))
      (set_routers <[self := emptied R]> w) in
  update_content self b kw ttl target_fragment true w = (Raise TypeError, w')
  ∧ (tasks w = [] →
     bind (update_content self b kw ttl target_fragment false)
       (λ _, run_background_task) w = (Ret tt, w')).
Proof.
  intros HR Hbinds w'.
  assert (with_slot self (exec_builder b kw ;; goto_fragment target_fragment)
            (set_routers <[self := emptied R]>
               (set_log (λ l, l ++ (if frame_change_title (router_frame R)
                                    then [PageTitle (ByFrame self) (default app_title ttl)]
                                    else [])) w))
          = (Raise TypeError, w')) as Hsync.
  { unfold with_slot, exec_builder, py_call, bind, raise. rewrite Hbinds.
    unfold w'. by destruct w. }
  split.
  - unfold update_content.
    rewrite (bind_ret _ _ _ _ _ (get_router_ok _ _ _ HR)).
    rewrite (bind_ret _ _ _ _ _ (when_page_title _ _ _ _)).
    set (w1 := set_log _ w).
    assert (routers w1 !! self = Some R) as HR1 by done.
    unfold frame_clear. rewrite (bind_ret _ _ _ _ _ (modify_router_ok _ _ _ _ HR1)).
    exact Hsync.
  - intros Ht. unfold update_content. rewrite bind_assoc.
    rewrite (bind_ret _ _ _ _ _ (get_router_ok _ _ _ HR)). rewrite bind_assoc.
    rewrite (bind_ret _ _ _ _ _ (when_page_title _ _ _ _)).
    set (w1 := set_log _ w).
    assert (routers w1 !! self = Some R) as HR1 by done.
    unfold frame_clear. rewrite bind_assoc.
    rewrite (bind_ret _ _ _ _ _ (modify_router_ok _ _ _ _ HR1)).
    rewrite create_then_run by done.
    unfold build, with_slot, exec_builder, py_call, bind, raise. rewrite Hbinds.
    unfold w'. by destruct w.
Qed.

(** X27: for a builder that is not a coroutine function, scheduling the
    build and letting the event loop run it leaves the same page as
    building at once: the same routers and frames, the same titles and
    scripts, no build left in the queue. Only the outcome can differ: what
    the build raises reaches the caller of a synchronous [update_content]
    and stays in the background otherwise. *)
Theorem scheduled_build_agrees_with_sync self b kw ttl target_fragment w R :
  routers w !! self = Some R →
  tasks w = [] →
  match b with
  | BuiltinPageNotFound => true
  | UserBuilder id => negb (is_coroutine_function id)
  end = true →
  ∃ o w',
    update_content self b kw ttl target_fragment true w = (o, w')
    ∧ bind (update_content self b kw ttl target_fragment false)
        (λ _, run_background_task) w = (Ret tt, w').
Proof.
  intros HR Ht Hb. unfold update_content. rewrite !bind_assoc.
  rewrite !(bind_ret _ _ _ _ _ (get_router_ok _ _ _ HR)). rewrite !bind_assoc.
  rewrite !(bind_ret _ _ _ _ _ (when_page_title _ _ _ _)).
  set (w1 := set_log _ w).
  assert (routers w1 !! self = Some R) as HR1 by done.
  unfold frame_clear. rewrite !bind_assoc.
  rewrite !(bind_ret _ _ _ _ _ (modify_router_ok _ _ _ _ HR1)).
  rewrite create_then_run by done.
  set (w2 := set_routers _ w1).
  assert (build self b kw target_fragment w2 = build_sync self b kw target_fragment w2)
    as ->.
  { unfold build, build_sync, with_slot. f_equal.
    set (w3 := set_slot_stack _ w2). unfold exec_builder, py_call.
    destruct (binds _ _); [|done].
    destruct b as [|id]; [by rewrite !bind_assoc|].
    apply negb_true_iff in Hb. rewrite Hb. by rewrite !bind_assoc. }
  destruct (build_sync self b kw target_fragment w2) as [o w']. by exists o, w'.
Qed.

Lemma forallb_ext_elem {A} (f g : A → bool) l :
  (∀ x, x ∈ l → f x = g x) → forallb f l = forallb g l.
Proof.
  induction l as [|a l IH]; intros Hfg; simpl; [done|].
  rewrite (Hfg a) by by left. f_equal. apply IH. intros x Hx. apply Hfg. by right.
Qed.

Lemma key_accepted_declared sig k :
  Forall (λ p, accepts_keyword p = true) sig →
  k ∈ parameter_names sig → key_accepted sig k = true.
Proof.
  intros Hall Hk. unfold key_accepted. apply orb_true_iff. left.
  apply existsb_exists. unfold parameter_names in Hk.
  apply list_elem_of_fmap in Hk as (p & -> & Hp).
  exists p. split; [by apply list_elem_of_In|].
  rewrite Forall_forall in Hall. rewrite (Hall p Hp). simpl.
  apply String.eqb_refl.
Qed.

(** X16: for a builder whose parameters are all ordinary ones
    (positional-or-keyword or keyword-only), the call that [exec_builder]
    makes binds exactly when every parameter without a default has an entry
    in the keyword arguments; no entry of the keyword arguments can make it
    fail. *)
Theorem exec_builder_binds_iff_required_present b kw :
  Forall (λ p, accepts_keyword p = true) (signature_of b) →
  binds (signature_of b) (filter_kwargs (parameter_names (signature_of b)) kw)
  = forallb (λ p, p_has_default p || bool_decide (is_Some (kw !! p_name p)))
      (signature_of b)
  ∧ (forallb (λ p, p_has_default p || bool_decide (is_Some (kw !! p_name p)))
       (signature_of b) = false →
     ∀ w, (exec_builder b kw w).1 = Raise TypeError).
Proof.
  intros Hall. set (sig := signature_of b) in *.
  assert (binds sig (filter_kwargs (parameter_names sig) kw)
          = forallb (λ p, p_has_default p || bool_decide (is_Some (kw !! p_name p))) sig)
    as Hbinds.
  { unfold binds.
    replace (forallb (key_accepted sig)
               (map_to_list (filter_kwargs (parameter_names sig) kw)).*1) with true.
    - simpl. apply forallb_ext_elem. intros p Hp.
      rewrite Forall_forall in Hall. specialize (Hall p Hp).
      unfold param_satisfied, accepts_keyword in *.
      assert (is_Some (filter_kwargs (parameter_names sig) kw !! p_name p)
              ↔ is_Some (kw !! p_name p)) as Hiff.
      { split; intros [v Hv].
        - apply filter_kwargs_lookup in Hv as [Hv _]. by eexists.
        - exists v. apply filter_kwargs_lookup. split; [done|].
          unfold parameter_names. by apply list_elem_of_fmap_2. }
      destruct (p_kind p); try done; f_equal; by apply bool_decide_ext.
    - symmetry. apply forallb_forall. intros k Hk%list_elem_of_In.
      apply key_accepted_declared; [done|].
      apply list_elem_of_fmap in Hk as ([k' v] & -> & Hkv).
      apply elem_of_map_to_list in Hkv. by apply filter_kwargs_lookup in Hkv as [_ ?]. }
  split; [done|]. intros Hmissing w. unfold exec_builder, py_call.
  fold sig. by rewrite Hbinds, Hmissing.
Qed.

End FrameContent.

(** ** Child routers: registration and clearing *)

Lemma dict_set_keys {V} k (v : V) d :
  (dict_set k v d).*1 = if bool_decide (k ∈ d.*1) then d.*1 else d.*1 ++ [k].
Proof.
  induction d as [|[k' v'] d IH]; [done|]. cbn [dict_set].
  destruct (String.eqb_spec k' k) as [->|Hne]; rewrite !fmap_cons; cbn [fst].
  - by rewrite bool_decide_eq_true_2 by by left.
  - rewrite IH. destruct (bool_decide (k ∈ d.*1)) eqn:Hin.
    + apply bool_decide_eq_true in Hin. by rewrite bool_decide_eq_true_2 by by right.
    + apply bool_decide_eq_false in Hin. rewrite bool_decide_eq_false_2; [done|].
      intros [?|?]%elem_of_cons; [congruence|done].
Qed.

Lemma dict_get_set_eq {V} k (v : V) d : dict_get k (dict_set k v d) = Some v.
Proof.
  induction d as [|[k' v'] d IH]; simpl; [by rewrite String.eqb_refl|].
  destruct (String.eqb_spec k' k) as [->|Hne]; simpl.
  - by rewrite String.eqb_refl.
  - by destruct (String.eqb_spec k' k).
Qed.

Lemma dict_get_set_ne {V} k k0 (v : V) d :
  k0 ≠ k → dict_get k0 (dict_set k v d) = dict_get k0 d.
Proof.
  intros Hne. induction d as [|[k' v'] d IH]; simpl.
  - by destruct (String.eqb_spec k k0) as [->|].
  - destruct (String.eqb_spec k' k) as [->|Hne']; simpl.
    + by destruct (String.eqb_spec k k0) as [->|].
    + by rewrite IH.
Qed.

Lemma dict_set_NoDup {V} k (v : V) d : NoDup d.*1 → NoDup (dict_set k v d).*1.
Proof.
  intros Hd. rewrite dict_set_keys. destruct (bool_decide (k ∈ d.*1)) eqn:Hin; [done|].
  apply bool_decide_eq_false in Hin. apply NoDup_app. split; [done|].
  split; [|apply NoDup_singleton]. by intros x Hx ->%list_elem_of_singleton.
Qed.

Section Children.

Context {U : Type} `{!Env U}.
Implicit Types (w : World U) (u : U).

Lemma find_child_router_dict_set url path frame children :
  find_child_router url children = None →
  find_child_router url (dict_set path frame children)
  = if mask_matches url path then Some frame else None.
Proof.
  induction children as [|[k c] children IH]; simpl; [done|].
  destruct (mask_matches url k) eqn:Hk; [done|]. intros Hnone.
  destruct (String.eqb_spec k path) as [->|Hne]; simpl; rewrite Hk; [|by apply IH].
  by rewrite Hnone.
Qed.

Lemma register_child_router_ok self path frame w R :
  routers w !! self = Some R →
  @_register_child_router U self path frame w
  = (Ret tt,
     set_routers <[self :=
       with_frame (frame_set_child_frame_paths (dict_set path frame (child_routers R)).*1)
         (with_child_routers (dict_set path frame (child_routers R)) R)]> w).
Proof.
  intros HR. unfold _register_child_router. rewrite (method_constructed _ _ _ _ _ HR).
  rewrite (bind_ret _ _ _ _ _ (modify_router_ok _ _ _ _ HR)).
  unfold modify_router. simpl. rewrite lookup_insert_eq. f_equal.
  unfold set_routers. simpl. by rewrite insert_insert_eq.
Qed.

(** X17: [_register_child_router] behaves as an assignment into an
    insertion-ordered dictionary and keeps the frame's list of child paths
    in step with it: afterwards the path leads to the new child, every other
    path leads where it led, a path that was registered before keeps its
    place in the order and a new one comes last, and the frame's
    [child_frame_paths] are the keys of [child_routers] in their order. *)
Theorem register_child_router_keeps_paths_in_sync self path frame w R :
  routers w !! self = Some R →
  NoDup (child_routers R).*1 →
  ∃ w' R',
    _register_child_router self path frame w = (Ret tt, w')
    ∧ routers w' = <[self := R']> (routers w)
    ∧ paths_in_sync R'
    ∧ NoDup (child_routers R').*1
    ∧ dict_get path (child_routers R') = Some frame
    ∧ (∀ p, p ≠ path → dict_get p (child_routers R') = dict_get p (child_routers R))
    ∧ (child_routers R').*1
      = (if bool_decide (path ∈ (child_routers R).*1) then (child_routers R).*1
         else (child_routers R).*1 ++ [path])
    ∧ log w' = log w ∧ tasks w' = tasks w ∧ user w' = user w.
Proof.
  intros HR Hnodup. eexists _, _. split; [by apply register_child_router_ok|].
  simpl. split; [done|]. split; [done|]. split; [by apply dict_set_NoDup|].
  split; [apply dict_get_set_eq|]. split; [intros p Hp; by apply dict_get_set_ne|].
  split; [apply dict_set_keys|]. done.
Qed.

Lemma clear_constructed self w R :
  routers w !! self = Some R →
  clear self w = (Ret tt, set_routers <[self := emptied (with_child_routers [] R)]> w).
Proof.
  intros HR. unfold clear, frame_clear. rewrite (method_constructed _ _ _ _ _ HR).
  rewrite (bind_ret _ _ _ _ _ (modify_router_ok _ _ _ _ HR)).
  unfold modify_router. simpl. rewrite lookup_insert_eq. f_equal.
  unfold set_routers. simpl. by rewrite insert_insert_eq.
Qed.

(** X18: after [clear] the router has forgotten its child routers and its
    frame is empty, and every URL is from then on handled by the router
    itself (handed to its navigation hooks), whatever child routers matched
    it before. The frame's list of child paths is not emptied with them:
    [RouterFrame.clear] resets the entry [child_frame_paths] of [_props],
    while [_register_child_router] wrote the attribute [child_frame_paths],
    which keeps the paths of the forgotten children. *)
Theorem clear_forgets_child_routers self w R :
  routers w !! self = Some R →
  ∃ w' R',
    clear self w = (Ret tt, w')
    ∧ routers w' = <[self := R']> (routers w)
    ∧ child_routers R' = []
    ∧ frame_content (router_frame R') = []
    ∧ props_child_frame_paths (router_frame R') = []
    ∧ child_frame_paths (router_frame R') = child_frame_paths (router_frame R)
    ∧ (paths_in_sync R → (paths_in_sync R' ↔ child_routers R = []))
    ∧ frame_target_url (router_frame R') = frame_target_url (router_frame R)
    ∧ user_data R' = user_data R
    ∧ log w' = log w ∧ tasks w' = tasks w ∧ user w' = user w
    ∧ ∀ fuel url server_side sync history,
        navigate_to (S fuel) self (TStr url) server_side sync history w'
        = bind (handle_navigate self url)
            (λ target, match target with
                       | None => ret tt
                       | Some url => navigate_resolved fuel self (TStr url) sync history
                       end) w'.
Proof.
  intros HR. exists (set_routers <[self := emptied (with_child_routers [] R)]> w),
                     (emptied (with_child_routers [] R)).
  split; [by apply clear_constructed|].
  simpl. do 5 (split; [done|]). split.
  { unfold paths_in_sync. simpl. intros ->. split.
    - intros E. by apply fmap_nil_inv in E.
    - by intros ->. }
  do 5 (split; [done|]).
  intros fuel url ss sync history.
  apply navigate_to_own with (R := emptied (with_child_routers [] R)); [|done].
  simpl. by rewrite lookup_insert_eq.
Qed.

End Children.

(** ** Creating routers *)

Section Construction.

Context {U : Type} `{!Env U}.
Implicit Types (w : World U) (u : U).

Lemma initial_target_url_returns config parent target_url w :
  parent = None ∨ (∃ p, parent = Some p ∧ is_Some (routers w !! p))
  ∨ is_Some target_url →
  ∃ url, initial_target_url config parent target_url w = (Ret url, w).
Proof.
  intros Hok. unfold initial_target_url.
  destruct target_url as [u0|]; [by eexists|].
  destruct parent as [p|]; [|by eexists].
  assert (is_Some (routers w !! p)) as [P HP].
  { by destruct Hok as [[=]|[(p' & [= <-] & Hp)|[? [=]]]]. }
  rewrite (method_constructed _ _ _ _ _ HP). by eexists.
Qed.

(** X19: a router created under a parent registers itself with the parent
    under its first included path, resolved against the base path (line
    76), and then fails: line 77 calls the constructor of the frame with
    keywords it does not take, [TypeError]. No router comes back, but the
    parent keeps the unfinished object among its child routers (its frame
    lists the path), and from then on a navigation of the parent to a URL
    that matches this path (or the path followed by [/*]) and no child
    registered before is handed to the unfinished object and raises
    [AttributeError] there, as it has no navigation hook attribute. *)
Theorem init_registers_with_parent
    config first rest excluded ubh ct p turl ud w P :
  routers w !! p = Some P →
  routers w !! next_rid w = None →
  ∃ w' P' H url,
    __init__ config (Some (first :: rest)) excluded ubh ct (Some p) turl ud w
      = (Raise TypeError, w')
    ∧ initial_target_url config (Some p) turl w = (Ret url, w)
    ∧ routers w' = <[p := P']> (routers w)
    ∧ unfinished w' = <[next_rid w := H]> (unfinished w)
    ∧ u_parent_router H = Some p
    ∧ u_base_path H
      = Str.join "/" (resolve_base_path_elements (cfg_base_path config) url)
    ∧ u_on_navigate H = None
    ∧ (let first' :=
         resolve_included_path
           (resolve_base_path_elements (cfg_base_path config) url) first in
       dict_get first' (child_routers P') = Some (next_rid w)
       ∧ ∀ url fuel server_side sync history,
           find_child_router url (child_routers P) = None →
           mask_matches url first' = true →
           navigate_to (S (S fuel)) p (TStr url) server_side sync history w'
           = (Raise AttributeError, w'))
    ∧ paths_in_sync P'
    ∧ log w' = log w ∧ tasks w' = tasks w ∧ user w' = user w.
Proof.
  intros HP Hfresh.
  assert (next_rid w ≠ p) as Hne by (intros E0; rewrite E0 in Hfresh; congruence).
  destruct (initial_target_url_returns config (Some p) turl w) as [url Hurl].
  { right. left. by exists p. }
  set (elements := resolve_base_path_elements (cfg_base_path config) url).
  set (first' := resolve_included_path elements first).
  assert (∃ rest', resolve_included_paths elements (first :: rest) = first' :: rest')
    as [rest' Hinc].
  { pose proof (resolve_included_paths_lookup elements (first :: rest) 0) as H0.
    simpl in H0. destruct (resolve_included_paths elements (first :: rest)) as [|f r];
      [done|]. injection H0 as ->. by eexists. }
  set (P' := with_frame
               (frame_set_child_frame_paths
                  (dict_set first' (next_rid w) (child_routers P)).*1)
               (with_child_routers (dict_set first' (next_rid w) (child_routers P)) P)).
  set (object :=
         {| u_router_config := config; u_base_path := Str.join "/" elements;
            u_user_data := ud; u_child_routers := [];
            u_use_browser_history := ubh; u_change_title := ct;
            u_parent_router := Some p;
            u_on_navigate := None; u_on_resolve := None; u_on_open := None |}).
  assert (∃ w', __init__ config (Some (first :: rest)) excluded ubh ct (Some p) turl ud w
                = (Raise TypeError, w')
              ∧ routers w' = <[p := P']> (routers w)
              ∧ unfinished w' = <[next_rid w := object]> (unfinished w)
              ∧ log w' = log w ∧ tasks w' = tasks w ∧ user w' = user w)
    as (w' & E & Hr & Hu & Hl & Ht & Hus).
  { unfold __init__. rewrite (bind_ret _ _ _ _ _ Hurl). cbv beta zeta.
    unfold bind at 1. cbv beta iota. fold elements. simpl fmap. rewrite Hinc.
    fold object.
    set (w1 := set_next_rid (S (next_rid w)) w).
    unfold bind at 1. unfold bind at 1. cbv beta iota.
    set (w2 := set_unfinished _ w1).
    assert (routers w2 !! p = Some P) as HP2 by done.
    rewrite (register_child_router_ok _ _ _ _ _ HP2).
    unfold raise. eexists. split; [done|]. by simpl. }
  exists w', P', object, url. do 7 (split; [done|]).
  split; [|by rewrite Hl, Ht, Hus].
  split; [apply dict_get_set_eq|].
  intros url0 fuel ss sync history Hnone Hmatch.
  assert (routers w' !! p = Some P') as HP' by (by rewrite Hr, lookup_insert_eq).
  assert (routers w' !! next_rid w = None) as Hself
    by (by rewrite Hr, lookup_insert_ne).
  assert (unfinished w' !! next_rid w = Some object) as Hobj
    by (by rewrite Hu, lookup_insert_eq).
  rewrite (navigate_to_child _ _ _ _ _ _ _ P' (next_rid w) HP').
  2: { change (child_routers P') with (dict_set first' (next_rid w) (child_routers P)).
       rewrite find_child_router_dict_set by done.
       by rewrite (Hmatch : mask_matches url0 first' = true). }
  simpl. unfold child_routers_of, handle_navigate, bind.
  rewrite (method_unfinished _ _ _ _ _ Hself Hobj). simpl.
  by rewrite (method_unfinished _ _ _ _ _ Hself Hobj).
Qed.

(** X20: a router created under a parent needs a first included path to
    register under: without included paths line 76 raises [TypeError], with
    an empty list [IndexError], and in both cases the parent has not been
    told about the router and no router was added to the store. *)
Theorem init_under_parent_needs_included_path
    config included excluded ubh ct p turl ud w P :
  routers w !! p = Some P →
  included = None ∨ included = Some [] →
  ∃ w', __init__ config included excluded ubh ct (Some p) turl ud w
        = (Raise (if included is None then TypeError else IndexError), w')
      ∧ routers w' = routers w ∧ log w' = log w ∧ tasks w' = tasks w.
Proof.
  intros HP Hinc.
  destruct (initial_target_url_returns config (Some p) turl w) as [url Hurl].
  { right. left. by exists p. }
  unfold __init__. rewrite (bind_ret _ _ _ _ _ Hurl). cbv beta zeta.
  unfold bind at 1. cbv beta iota.
  destruct Hinc as [-> | ->]; by eexists.
Qed.

(** X21: the substitution of lines 57-74 leaves plain paths alone: a base
    path without [{parameter}] segments is joined back to the config's base
    path as it stands, whatever target URL the router starts from, and
    included paths without [*] segments stay the paths that were passed
    (split and join on [/] round-trip). *)
Theorem init_keeps_plain_paths config url paths :
  (∀ element, element ∈ Str.split slash (cfg_base_path config) →
              is_param element = false) →
  let elements := resolve_base_path_elements (cfg_base_path config) url in
  Str.join "/" elements = cfg_base_path config
  ∧ ((∀ path element, path ∈ paths → element ∈ Str.split slash path →
                      element ≠ "*") →
     resolve_included_paths elements paths = paths).
Proof.
  intros Hplain elements. split.
  - unfold elements, resolve_base_path_elements.
    rewrite enumerate_update_unchanged; [apply join_split|].
    intros i e He. unfold updated. rewrite Hplain; [done|].
    by apply list_elem_of_lookup_2 in He.
  - intros Hstar. unfold resolve_included_paths. apply enumerate_update_unchanged.
    intros i path Hpath. unfold updated. simpl. unfold resolve_included_path.
    rewrite enumerate_update_unchanged; [apply join_split|].
    intros j e He. unfold updated.
    destruct (String.eqb_spec e "*") as [->|]; [|done].
    exfalso. eapply Hstar; [|by apply list_elem_of_lookup_2 in He|done].
    by apply list_elem_of_lookup_2 in Hpath.
Qed.

End Construction.

(** ** User data, hooks and the current router *)

Section Settings.

Context {U : Type} `{!Env U}.
Implicit Types (w : World U) (u : U).

(** X23: [update_user_data] merges the new entries into the router's user
    data, the new ones winning, and touches nothing else of the router; the
    [on_open] hooks of the next navigation receive a new entry under its
    key, unless the key is one of the router's own ([url_path],
    [previous_url_path]) or a key of the frame's data. *)
Theorem update_user_data_reaches_hooks self new_data w R own :
  routers w !! self = Some R →
  user_data R = Some own →
  ∃ w', update_user_data self new_data w = (Ret tt, w')
    ∧ routers w' !! self = Some (with_user_data (Some (new_data ∪ own)) R)
    ∧ log w' = log w ∧ tasks w' = tasks w ∧ user w' = user w
    ∧ (∀ k v, new_data !! k = Some v → (new_data ∪ own) !! k = Some v)
    ∧ (∀ k, new_data !! k = None → (new_data ∪ own) !! k = own !! k)
    ∧ ∀ inherited target k v,
        new_data !! k = Some v →
        k ≠ "url_path" → k ≠ "previous_url_path" →
        frame_user_data (router_frame R) !! k = None →
        initial_handler_kwargs (with_user_data (Some (new_data ∪ own)) R)
          inherited (new_data ∪ own) target !! k = Some v.
Proof.
  intros HR Hown. eexists. split.
  { unfold update_user_data. rewrite (method_constructed _ _ _ _ _ HR).
    rewrite Hown. by apply modify_router_ok. }
  simpl. rewrite lookup_insert_eq. do 4 (split; [done|]).
  split; [intros k v Hk; by apply lookup_union_Some_l|].
  split; [intros k Hk; by apply lookup_union_r|].
  intros inherited target k v Hk Hurl Hprev Hframe.
  unfold initial_handler_kwargs, py_or. simpl.
  rewrite lookup_insert_ne by done.
  rewrite lookup_union_r by by rewrite lookup_singleton_ne.
  rewrite lookup_union_r by done.
  apply lookup_union_Some_l. by apply lookup_union_Some_l.
Qed.

(** X24: the hook setters return the router, so that they can be chained,
    and each replaces the one hook it names: a chain of setters leaves the
    router with the last hook registered of each kind, in whatever order
    the kinds come, and with everything else as it was. *)
Theorem hook_setters_chain self hn hr ho w R :
  routers w !! self = Some R →
  let w' := set_routers <[self := with_hooks (Some hn) (Some hr) (Some ho) R]> w in
  (let* r := on_navigate self hn in let* r := on_resolve r hr in on_open r ho) w
  = (Ret self, w')
  ∧ (let* r := on_open self ho in let* r := on_resolve r hr in on_navigate r hn) w
    = (Ret self, w')
  ∧ ∀ hn0 hr0 ho0,
      (let* r := on_open self ho0 in let* r := on_navigate r hn0 in
       let* r := on_resolve r hr0 in let* r := on_navigate r hn in
       let* r := on_resolve r hr in on_open r ho) w
      = (Ret self, w').
Proof.
  intros HR w'.
  assert (∀ (f g : SinglePageRouter → SinglePageRouter) w0 R0,
            routers w0 !! self = Some R0 →
            set_routers <[self := f (g R0)]> w0
            = set_routers <[self := f (g R0)]> (set_routers <[self := g R0]> w0)) as Hset.
  { intros f g w0 R0 _. unfold set_routers. simpl. by rewrite insert_insert_eq. }
  unfold on_navigate, on_resolve, on_open, bind, method, modify_router, ret.
  repeat split; intros; rewrite HR; simpl; rewrite ?lookup_insert_eq; simpl;
    rewrite ?lookup_insert_eq; simpl; rewrite ?lookup_insert_eq; simpl;
    rewrite ?lookup_insert_eq; simpl; rewrite ?lookup_insert_eq; simpl;
    f_equal; unfold w', set_routers; simpl; by rewrite !insert_insert_eq.
Qed.

(** X25: once an [on_navigate] hook is registered, it decides about every
    URL the router handles itself: a URL it answers null for is dropped
    without a trace (no config is asked, nothing resolved, recorded or
    rendered), whatever hook was registered before. *)
Theorem on_navigate_hook_can_veto self h w R url u :
  routers w !! self = Some R →
  find_child_router url (child_routers R) = None →
  call_on_navigate h url (user w) = (Ok None, u) →
  ∃ w1, on_navigate self h w = (Ret self, w1)
    ∧ routers w1 = <[self := with_hooks (Some h) (_on_resolve R) (_on_open R) R]> (routers w)
    ∧ handle_navigate self url w1 = (Ret None, set_user u w1)
    ∧ ∀ fuel server_side sync history,
        navigate_to (S fuel) self (TStr url) server_side sync history w1
        = (Ret tt, set_user u w1).
Proof.
  intros HR Hchild Hveto. eexists. split.
  { unfold on_navigate. unfold bind at 1. rewrite (method_constructed _ _ _ _ _ HR).
    by rewrite (modify_router_ok _ _ _ _ HR). }
  split; [done|].
  set (w1 := set_routers _ w).
  assert (routers w1 !! self
          = Some (with_hooks (Some h) (_on_resolve R) (_on_open R) R)) as HR1.
  { unfold w1. simpl. by rewrite lookup_insert_eq. }
  assert (handle_navigate self url w1 = (Ret None, set_user u w1)) as Eh.
  { rewrite (handle_navigate_constructed _ _ _ _ HR1). unfold handle_navigate_with.
    simpl. unfold bind, lift_user. change (user w1) with (user w). by rewrite Hveto. }
  split; [done|]. intros fuel ss sync history.
  rewrite (navigate_to_own _ _ _ _ _ _ _ _ HR1) by done.
  by rewrite (bind_ret _ _ _ _ _ Eh).
Qed.

Lemma innermost_frame_Some stack r :
  innermost_frame stack = Some r
  ↔ ∃ others rest, stack = others ++ SlotFrame r :: rest
                   ∧ Forall (λ s, s = SlotOther) others.
Proof.
  induction stack as [|s stack IH]; simpl.
  - split; [done|]. intros (others & rest & E & _). by destruct others.
  - destruct s as [r0|].
    + split.
      * intros [= ->]. by exists [], stack.
      * intros (others & rest & E & Hothers). destruct others as [|s others].
        -- by injection E as ->.
        -- injection E as <- _. by apply Forall_cons in Hothers as [? _].
    + rewrite IH. split.
      * intros (others & rest & -> & Hothers). exists (SlotOther :: others), rest.
        split; [done|]. by constructor.
      * intros (others & rest & E & Hothers). destruct others as [|s others]; [done|].
        injection E as _ ->. apply Forall_cons in Hothers as [_ ?].
        by exists others, rest.
Qed.

(** X26: [get_current_router] answers the router of the innermost frame
    whose slot is open: the one nearest to the top of the slot stack, with
    only slots of other elements above it; it answers null exactly when no
    frame's slot is open. So code that runs inside a frame's slot ([with
    self:] of the build) is told the router of that frame. *)
Theorem get_current_router_is_innermost w :
  (∀ r, get_current_router w = (Ret (Some r), w)
        ↔ ∃ others rest, slot_stack w = others ++ SlotFrame r :: rest
                         ∧ Forall (λ s, s = SlotOther) others)
  ∧ (get_current_router w = (Ret None, w) ↔ ∀ r, SlotFrame r ∉ slot_stack w)
  ∧ ∀ A self (k : option rid → M U A),
      with_slot self (let* r := get_current_router in k r) w
      = with_slot self (k (Some self)) w.
Proof.
  split; [|split; [|done]].
  - intros r. rewrite <- innermost_frame_Some. unfold get_current_router.
    split; [by intros [= ->]|by intros ->].
  - unfold get_current_router. split.
    + intros [= Hnone] r Hin. apply list_elem_of_split in Hin as (others & rest & E).
      revert Hnone. rewrite E. clear E.
      induction others as [|[r0|] others IH]; simpl; [done|done|done].
    + intros Hnone. f_equal. f_equal.
      induction (slot_stack w) as [|[r0|] stack IH]; simpl; [done| |].
      * exfalso. apply (Hnone r0). by left.
      * apply IH. intros r Hin. apply (Hnone r). by right.
Qed.

End Settings.

(** * The example applications, again *)

Section MoreExamples.

Import Demo.

Local Abbreviation guard :=
  (new_router main_config None [] "/" (Some confirm_leave) None None).
Local Abbreviation root_router :=
  (new_router services_config None [] "/" None None None).
Local Abbreviation hooked :=
  (new_router services_config None [] "/" None None (Some update_title_hook)).
Local Abbreviation plain :=
  (new_router main_config None [] "/" None None None).
Local Abbreviation service_page :=
  (new_router main_config None [] "/services/compute/vm" None None None).

(** X1 on the masks of the example: the outlets [/services/] and
    [/other_app/]. *)
Lemma path_masks_ignore_trailing_slash_witness :
  path_masks (Some ["/services/"; "/other_app/"])
  = path_masks (Some ["/services"; "/other_app"])
  ∧ path_masks (Some ["/services"; "/other_app"]) !! 2 = Some "/other_app"
  ∧ path_masks (Some ["/services"; "/other_app"]) !! 3 = Some "/other_app/*".
Proof.
  destruct (path_masks_ignore_trailing_slash ["/services"; "/other_app"])
    as (Hsame & _ & Hmasks).
  destruct (Hmasks 1 "/other_app" eq_refl) as (Hplain & Hstar & _).
  split; [exact Hsame|]. split; [exact Hplain|exact Hstar].
Defined.

(** X2 on the example: the [on_resolve] hook answers every URL itself. *)
Lemma resolve_target_on_resolve_first_witness :
  resolve_target 1 0 (TStr "/new") (Some ∅) suppressing_world
  = (Ret (unmatched "/hidden" false), set_user ["on_resolve"] suppressing_world).
Proof.
  refine (resolve_target_on_resolve_first 0 0 (TStr "/new") (Some ∅) suppressing_world
            (new_router main_config None [] "/" None (Some suppress_all) None)
            suppress_all (unmatched "/hidden" false) ["on_resolve"] _ _ _);
    vm_compute; reflexivity.
Defined.

(** X3 on the example: /nowhere is not in the route table; the hook of the
    config does not run. *)
Lemma resolve_target_unmatched_runs_no_hook_witness :
  resolve_target 1 0 (TStr "/nowhere") (Some ∅) redirecting_world
  = (Ret (claim_target 0 (routes "/nowhere")), redirecting_world)
  ∧ router (claim_target 0 (routes "/nowhere")) = Some 0.
Proof.
  destruct (resolve_target_unmatched_runs_no_hook 0 0 "/nowhere" (Some ∅)
              redirecting_world root_router redirecting_world (routes "/nowhere")
              redirecting_world) as (Hres & Hrouter & _).
  - vm_compute; reflexivity.
  - vm_compute; reflexivity.
  - vm_compute; reflexivity.
  - vm_compute; reflexivity.
  - split; [exact Hres|exact Hrouter].
Defined.

(** X4 on the example: the page of a service has a hook on its route entry,
    and its config has one; the router has none of its own, and the two run
    in this order. *)
Lemma resolve_target_runs_every_hook_witness :
  resolve_target 1 0 (TStr "/services/compute/vm") (Some ∅) redirecting_world
  = (Ret (with_title "NiceCLOUD" (claim_target 0 (routes "/services/compute/vm"))),
     set_user ["on_open:update_title"; "on_open:config"] redirecting_world)
  ∧ original_path (with_title "NiceCLOUD" (claim_target 0 (routes "/services/compute/vm")))
    = Some "/services/compute/vm".
Proof.
  refine (resolve_target_runs_every_hook 0 0 "/services/compute/vm" (Some ∅)
            redirecting_world root_router redirecting_world
            (routes "/services/compute/vm") redirecting_world
            (with_title "NiceCLOUD" (claim_target 0 (routes "/services/compute/vm")))
            (set_user ["on_open:update_title"; "on_open:config"] redirecting_world)
            _ _ _ _ _).
  - vm_compute; reflexivity.
  - vm_compute; reflexivity.
  - vm_compute; reflexivity.
  - eexists. vm_compute; reflexivity.
  - vm_compute; reflexivity.
Defined.

(** X5 on the example: the router has an [on_open] hook of its own and /new
    has a route entry; the hook leaves no trace. *)
Lemma resolve_target_router_hook_never_runs_witness :
  resolve_target 1 0 (TStr "/new") (Some ∅) hooked_world
  = (Raise AttributeError, hooked_world).
Proof.
  refine (resolve_target_router_hook_never_runs 0 0 "/new" (Some ∅) hooked_world hooked
            hooked_world (routes "/new") hooked_world _ _ _ _ _).
  - vm_compute; reflexivity.
  - vm_compute; reflexivity.
  - vm_compute; reflexivity.
  - eexists. vm_compute; reflexivity.
  - by eexists.
Defined.

(** X6 on the example: the route entry of /old has an [on_open] hook. *)
Lemma resolve_target_without_user_data_witness :
  resolve_target 1 0 (TStr "/old") None redirecting_world
  = (Raise TypeError, redirecting_world).
Proof.
  refine (resolve_target_without_user_data 0 0 "/old" redirecting_world root_router
            redirecting_world (routes "/old") redirecting_world
            (entry (Some redirect_old)) _ _ _ _ _ _).
  - vm_compute; reflexivity.
  - vm_compute; reflexivity.
  - vm_compute; reflexivity.
  - vm_compute; reflexivity.
  - reflexivity.
  - by eexists.
Defined.

(** X7 on the example, whose callbacks raise no [NotImplementedError]. *)
Lemma resolve_target_never_not_implemented_witness :
  (resolve_target 3 0 (TStr "/old") (Some ∅) redirecting_world).1
  ≠ Raise NotImplementedError.
Proof.
  refine (proj1 (resolve_target_never_not_implemented 3 0 (TStr "/old") (Some ∅)
                   redirecting_world _ _ _)).
  - intros h target u. discriminate.
  - intros cfg url u. discriminate.
  - intros h args kw u. simpl. destruct args as [|t args]; [discriminate|].
    destruct (h =? redirect_old)%nat; [discriminate|].
    destruct (h =? rename_moved)%nat; [discriminate|].
    destruct (h =? update_title_hook)%nat; discriminate.
Defined.

(** X8 on the example: the hook lets /home through. *)
Lemma handle_navigate_returns_config_answer_witness :
  handle_navigate 0 "/home" guarded_world
  = lift_user (config_handle_navigate main_config "/home")
      (set_user ["on_navigate"] guarded_world).
Proof.
  refine (handle_navigate_returns_config_answer 0 "/home" guarded_world guard "/home"
            ["on_navigate"] _ _); vm_compute; reflexivity.
Defined.


(** X10 on the example: the [on_resolve] hook answers an invalid target. *)
Lemma navigate_to_suppresses_invalid_target_witness :
  navigate_to 3 0 (TStr "/x") true true true suppressing_world
  = (Ret tt, set_user ["on_resolve"] suppressing_world)
  ∧ routers (set_user ["on_resolve"] suppressing_world) = routers suppressing_world
  ∧ log (set_user ["on_resolve"] suppressing_world) = log suppressing_world
  ∧ tasks (set_user ["on_resolve"] suppressing_world) = tasks suppressing_world.
Proof.
  refine (navigate_to_suppresses_invalid_target 2 0 (TStr "/x") (TStr "/x")
            true true true suppressing_world suppressing_world
            (new_router main_config None [] "/" None (Some suppress_all) None)
            ∅ ∅ (unmatched "/hidden" false)
            (set_user ["on_resolve"] suppressing_world) _ _ _ _ _ _);
    vm_compute; reflexivity.
Defined.

(** X11 on the example: the page /new is in the route table and the router
    lets the URL through; the navigation ends at line 176. *)
Lemma navigate_to_valid_target_raises_witness :
  navigate_to 3 0 (TStr "/new") true true true guarded_world
  = (Raise AttributeError, set_user ["on_navigate"] guarded_world)
  ∧ routers (set_user ["on_navigate"] guarded_world) = routers guarded_world
  ∧ log (set_user ["on_navigate"] guarded_world) = log guarded_world
  ∧ tasks (set_user ["on_navigate"] guarded_world) = tasks guarded_world.
Proof.
  refine (navigate_to_valid_target_raises 2 0 (TStr "/new") (TStr "/new")
            true true true guarded_world (set_user ["on_navigate"] guarded_world) guard
            ∅ ∅ (claim_target 0 (routes "/new"))
            (set_user ["on_navigate"] guarded_world) _ _ _ _ _ _);
    vm_compute; reflexivity.
Defined.

(** X12 on the example: a router that was given no user data. *)
Lemma navigate_to_without_user_data_witness :
  navigate_to 2 0 (TTarget (routes "/new")) true true true Portal.bare_world
  = (Raise TypeError, Portal.bare_world).
Proof.
  refine (navigate_to_without_user_data 1 0 (TTarget (routes "/new"))
            (TTarget (routes "/new")) true true true Portal.bare_world Portal.bare_world
            (with_user_data None plain) _ _ _ _).
  - reflexivity.
  - vm_compute; reflexivity.
  - intros r Hin. by apply elem_of_nil in Hin.
  - reflexivity.
Defined.

(** X17 on the example: the outlet of the services registers with the main
    router. *)
Lemma register_child_router_keeps_paths_in_sync_witness :
  ∃ w' R',
    _register_child_router 0 "/services" 1 Portal.plain_world = (Ret tt, w')
    ∧ routers w' = <[0 := R']> (routers Portal.plain_world)
    ∧ paths_in_sync R'
    ∧ dict_get "/services" (child_routers R') = Some 1
    ∧ (child_routers R').*1 = ["/services"].
Proof.
  destruct (register_child_router_keeps_paths_in_sync 0 "/services" 1
              Portal.plain_world plain)
    as (w' & R' & Hreg & Hr & Hsync & _ & Hget & _ & Hkeys & _).
  - vm_compute; reflexivity.
  - apply NoDup_nil_2.
  - exists w', R'. split; [exact Hreg|]. split; [exact Hr|]. split; [exact Hsync|].
    split; [exact Hget|exact Hkeys].
Defined.

Local Abbreviation registered :=
  (_register_child_router 0 "/services" 1 Portal.plain_world).2.
Local Abbreviation registered_router :=
  (with_frame (frame_set_child_frame_paths ["/services"])
     (with_child_routers [("/services", 1)] plain)).

(** X18 on the example: the main router forgets the outlet of the services
    that registered with it; the frame still lists its path. *)
Lemma clear_forgets_child_routers_witness :
  ∃ w' R',
    clear 0 registered = (Ret tt, w')
    ∧ routers w' = <[0 := R']> (routers registered)
    ∧ child_routers R' = []
    ∧ child_frame_paths (router_frame R') = ["/services"]
    ∧ ¬ paths_in_sync R'.
Proof.
  destruct (clear_forgets_child_routers 0 registered registered_router)
    as (w' & R' & Hclear & Hr & Hchildren & _ & _ & Hpaths & Hsync & _).
  - vm_compute; reflexivity.
  - exists w', R'. split; [exact Hclear|]. split; [exact Hr|]. split; [exact Hchildren|].
    split; [exact Hpaths|].
    intros Hnow. apply Hsync in Hnow; [discriminate|reflexivity].
Defined.

(** X19 on the example: the outlet of the services is created while the
    main router shows /services/compute/vm. *)
Lemma init_registers_with_parent_witness :
  ∃ w' P',
    __init__ services_config (Some ["/services/*"]) None true true (Some 0) None (Some ∅)
      Portal.service_page_world = (Raise TypeError, w')
    ∧ routers w' = <[0 := P']> (routers Portal.service_page_world)
    ∧ dict_get "/services/compute" (child_routers P') = Some 1
    ∧ navigate_to 3 0 (TStr "/services/compute/vm") true true true w'
      = (Raise AttributeError, w').
Proof.
  destruct (init_registers_with_parent services_config "/services/*" [] None true true
              0 None (Some ∅) Portal.service_page_world service_page)
    as (w' & P' & H & url & Hinit & Hurl & Hr & _ & _ & _ & _ & Hfirst & _).
  - vm_compute; reflexivity.
  - vm_compute; reflexivity.
  - assert (url = "/services/compute/vm") as -> by (by injection Hurl as <-).
    destruct Hfirst as [Hget Hnav].
    exists w', P'. split; [exact Hinit|]. split; [exact Hr|]. split; [exact Hget|].
    apply Hnav; vm_compute; reflexivity.
Defined.

(** X20 on the example: the outlet of the services created without included
    paths. *)
Lemma init_under_parent_needs_included_path_witness :
  ∃ w', __init__ services_config None None true true (Some 0) None (Some ∅)
          Portal.service_page_world = (Raise TypeError, w')
      ∧ routers w' = routers Portal.service_page_world.
Proof.
  destruct (init_under_parent_needs_included_path services_config None None true true
              0 None (Some ∅) Portal.service_page_world service_page)
    as (w' & Hinit & Hr & _).
  - vm_compute; reflexivity.
  - by left.
  - exists w'. split; [exact Hinit|exact Hr].
Defined.

(** X21 on the example: the main outlet at [/] with the included path
    [/about], started from any target URL. *)
Lemma init_keeps_plain_paths_witness :
  Str.join "/" (resolve_base_path_elements "/" "/services/compute/vm") = "/"
  ∧ resolve_included_paths (resolve_base_path_elements "/" "/services/compute/vm")
      ["/about"] = ["/about"].
Proof.
  destruct (init_keeps_plain_paths main_config "/services/compute/vm" ["/about"])
    as [Hbase Hpaths].
  - intros element [->|[->|[]%elem_of_nil]%elem_of_cons]%elem_of_cons; reflexivity.
  - split; [exact Hbase|]. apply Hpaths.
    intros path element ->%list_elem_of_singleton
      [->|[->|[]%elem_of_nil]%elem_of_cons]%elem_of_cons; discriminate.
Defined.

(** X23 on the example: the service is added to the user data of the
    router. *)
Lemma update_user_data_reaches_hooks_witness :
  ∃ w', update_user_data 0 {[ "service" := VObj 1 ]} Portal.plain_world = (Ret tt, w')
    ∧ routers w' !! 0
      = Some (with_user_data (Some ({[ "service" := VObj 1 ]} ∪ ∅)) plain)
    ∧ initial_handler_kwargs
        (with_user_data (Some ({[ "service" := VObj 1 ]} ∪ ∅)) plain)
        ∅ ({[ "service" := VObj 1 ]} ∪ ∅) (TStr "/new") !! "service" = Some (VObj 1).
Proof.
  destruct (update_user_data_reaches_hooks 0 {[ "service" := VObj 1 ]}
              Portal.plain_world plain ∅)
    as (w' & Hupdate & HR & _ & _ & _ & _ & _ & Hkwargs).
  - vm_compute; reflexivity.
  - reflexivity.
  - exists w'. split; [exact Hupdate|]. split; [exact HR|].
    apply Hkwargs; [vm_compute; reflexivity|discriminate|discriminate|
                    vm_compute; reflexivity].
Defined.

(** X24 on the example: the three hooks of the first instance, chained. *)
Lemma hook_setters_chain_witness :
  (let* r := on_navigate 0 confirm_leave in
   let* r := on_resolve r suppress_all in on_open r update_title_hook) Portal.plain_world
  = (Ret 0,
     set_routers
       <[0 := with_hooks (Some confirm_leave) (Some suppress_all) (Some update_title_hook)
                plain]>
       Portal.plain_world).
Proof.
  refine (proj1 (hook_setters_chain 0 confirm_leave suppress_all update_title_hook
                   Portal.plain_world plain _)).
  vm_compute; reflexivity.
Defined.

(** X25 on the example: the hook that vetoes /admin is registered with a
    router that had none. *)
Lemma on_navigate_hook_can_veto_witness :
  ∃ w1, on_navigate 0 confirm_leave Portal.plain_world = (Ret 0, w1)
    ∧ navigate_to 3 0 (TStr "/admin") true true true w1
      = (Ret tt, set_user ["on_navigate"] w1).
Proof.
  destruct (on_navigate_hook_can_veto 0 confirm_leave Portal.plain_world plain "/admin"
              ["on_navigate"]) as (w1 & Hset & _ & _ & Hnav).
  - vm_compute; reflexivity.
  - reflexivity.
  - vm_compute; reflexivity.
  - exists w1. split; [exact Hset|exact (Hnav 2 true true true)].
Defined.

(** X27 on the example: the index page, built at once and in the
    background. *)
Lemma scheduled_build_agrees_with_sync_witness :
  ∃ o w',
    update_content 0 (UserBuilder 0) {[ "url_path" := VStr "/" ]} (Some "Home") None true
      guarded_world = (o, w')
    ∧ bind (update_content 0 (UserBuilder 0) {[ "url_path" := VStr "/" ]} (Some "Home")
              None false)
        (λ _, run_background_task) guarded_world = (Ret tt, w').
Proof.
  refine (scheduled_build_agrees_with_sync 0 (UserBuilder 0) {[ "url_path" := VStr "/" ]}
            (Some "Home") None guarded_world guard _ _ _); vm_compute; reflexivity.
Defined.

End MoreExamples.

Section PortalExamples.

Import Portal.

Local Abbreviation plain_router :=
  (Demo.new_router Demo.main_config None [] "/" None None None).

(** X14 on the portal: the view [live_status] is a coroutine function; a
    synchronous update leaves the frame empty. *)
Lemma update_content_sync_never_awaits_witness :
  update_content 0 (UserBuilder live_status) {[ "url_path" := VStr "/status" ]}
    (Some "Status") None true plain_world
  = (Ret tt,
     set_log (λ l, l ++ [PageTitle (ByFrame 0) "Status"] ++ [])
       (set_routers <[0 := emptied plain_router]> plain_world)).
Proof.
  refine (update_content_sync_never_awaits 0 live_status {[ "url_path" := VStr "/status" ]}
            (Some "Status") None plain_world plain_router _ _ _); vm_compute; reflexivity.
Defined.

(** X15 on the portal: the index page requires [menu_drawer], which the
    keyword arguments do not hold. *)
Lemma update_content_unbound_builder_witness :
  update_content 0 (UserBuilder main_app_index) {[ "url_path" := VStr "/" ]}
    (Some "Home") None true plain_world
  = (Raise TypeError,
     set_log (λ l, l ++ [PageTitle (ByFrame 0) "Home"])
       (set_routers <[0 := emptied plain_router]> plain_world)).
Proof.
  refine (proj1 (update_content_unbound_builder 0 (UserBuilder main_app_index)
                   {[ "url_path" := VStr "/" ]} (Some "Home") None plain_world
                   plain_router _ _)); vm_compute; reflexivity.
Defined.

(** X16 on the portal: [show_index] requires [service]. *)
Lemma exec_builder_binds_iff_required_present_witness :
  binds (signature_of (UserBuilder show_index))
    (filter_kwargs (parameter_names (signature_of (UserBuilder show_index)))
       {[ "url_path" := VStr "/" ]}) = false
  ∧ (exec_builder (UserBuilder show_index) {[ "url_path" := VStr "/" ]} plain_world).1
    = Raise TypeError.
Proof.
  destruct (exec_builder_binds_iff_required_present (UserBuilder show_index)
              {[ "url_path" := VStr "/" ]}) as [Hbinds Hraise].
  - repeat constructor.
  - split; [exact Hbinds|]. apply Hraise. vm_compute; reflexivity.
Defined.

End PortalExamples.
